(** * szservo: the SPI serialiser of the DAC interface ([spi.py])

    A shallow embedding of the Migen module [SPI] (clock divider, transfer
    state machine, shift/counter datapath and initialisation latch) as a
    cycle-accurate transition function over a record of registers, together
    with the reset levels of the pins declared by [ZotinoPads] ([pads.py]). *)

From Stdlib Require Import ZArith List Bool Lia.
Import ListNotations.
Open Scope Z_scope.

(** ** The fragments of Migen the module relies on *)

Module Migen.

(** [bits_for n]: number of bits needed to hold [n]; a sign bit is added for
    [n <= 0] (so [bits_for 0 = 1]). *)
Definition bits_for (n : Z) : Z :=
  if 0 <? n then Z.log2_up (n + 1) else Z.log2_up (- n) + 1.

(** Width of a signal built by [Signal(max = m)]: the bounds are made
    inclusive first.  Whether the signal is built at all is [signal_max]. *)
Definition width_of_max (m : Z) : Z := Z.max (bits_for 0) (bits_for (m - 1)).

(** [Signal(max = m)]: [max -= 1; assert(min < max)] with [min = 0], then
    the width.  [None] is the [AssertionError]. *)
Definition signal_max (m : Z) : option Z :=
  if 0 <? m - 1 then Some (width_of_max m) else None.

(** An assignment keeps the low [w] bits of the value it is given. *)
Definition trunc (w v : Z) : Z := v mod 2 ^ w.

(** [Cat(0, x[:-1])] for a [w]-bit [x]: a constant zero bit below the low
    [w - 1] bits of [x]. *)
Definition cat0_drop_msb (w x : Z) : Z := 2 * (x mod 2 ^ (w - 1)).

(** [x[:k]]: the low [k] bits. *)
Definition slice_low (k x : Z) : Z := x mod 2 ^ k.

(** [x[-1]] for a [w]-bit [x]: the most significant bit. *)
Definition msb (w x : Z) : bool := Z.testbit x (w - 1).

End Migen.

(** Reset levels of the pins of [ZotinoPads]; a combinational signal that no
    active statement drives takes its reset level. *)
Module ZotinoPads.
Definition sdi_reset : bool := false.
Definition syncr_reset : bool := true.
Definition sclk_reset : bool := false.
End ZotinoPads.

(** ** Data model *)

Record SPIParams : Type := mkParams {
  channels : Z;      (* amount of channels in use *)
  data_width : Z;    (* width of one portion of data to be transferred *)
  clk_width : Z      (* clock half cycle width *)
}.

(** The configurations the module means to accept: at least one channel,
    segments of at least one bit, and [clk_width >= 1] as its own assertion
    has it.  Which of them [SPI.__init__] manages to build is [SPI_init]. *)
Definition valid_params (p : SPIParams) : Prop :=
  1 <= channels p /\ 1 <= data_width p /\ 1 <= clk_width p.

(** Width of [dataSPI] and of [sr_data]. *)
Definition sr_width (p : SPIParams) : Z := data_width p * channels p.
Definition clk_counter_width (p : SPIParams) : Z := Migen.width_of_max (clk_width p).
Definition bits_width (p : SPIParams) : Z :=
  Migen.width_of_max (data_width p * channels p + 1).
Definition word_counter_width (p : SPIParams) : Z :=
  Migen.width_of_max (channels p + 1).

(** The signals of [SPI.__init__] whose width comes from a bound. *)
Record SPISignals : Type := mkSignals {
  clk_counter_bits : Z;
  bits_bits : Z;
  word_counter_bits : Z
}.

(** Building the module, as far as it can fail: the three [Signal(max = ...)]
    in the order of the source, then the module's own
    [assert params.clk_width >= 1].  [None] is an [AssertionError].  (The
    widths given as numbers, [data_width * channels] and [data_width], are
    positive whenever these checks pass.) *)
Definition SPI_init (p : SPIParams) : option SPISignals :=
  match Migen.signal_max (clk_width p) with
  | None => None
  | Some wc =>
      match Migen.signal_max (data_width p * channels p + 1) with
      | None => None
      | Some wb =>
          match Migen.signal_max (channels p + 1) with
          | None => None
          | Some ww =>
              if 1 <=? clk_width p then Some (mkSignals wc wb ww) else None
          end
      end
  end.

Inductive fsm_state : Type :=
  | IDLE | SETUP | HOLD | DELAY | BUSY_LOW | BUSY_HIGH.

Definition fsm_state_eqb (a b : fsm_state) : bool :=
  match a, b with
  | IDLE, IDLE | SETUP, SETUP | HOLD, HOLD | DELAY, DELAY
  | BUSY_LOW, BUSY_LOW | BUSY_HIGH, BUSY_HIGH => true
  | _, _ => false
  end.

(** The registers of the module (everything assigned in a [sync] block). *)
Record regs : Type := mkRegs {
  clk_counter : Z;
  state : fsm_state;
  sr_data : Z;
  bits : Z;
  word_counter : Z;
  initialized : bool;
  sync_init : bool
}.

(** Reset values: the FSM starts in IDLE, every other register at 0. *)
Definition reset_regs : regs :=
  {| clk_counter := 0; state := IDLE; sr_data := 0; bits := 0;
     word_counter := 0; initialized := false; sync_init := false |}.

(** The signals driven from outside. *)
Record inputs : Type := mkInputs {
  start : bool;
  init : bool;
  busy : bool;
  dataSPI : Z
}.

(** ** Combinational logic *)

Definition clk_cnt_done (s : regs) : bool := clk_counter s =? 0.

Definition comb_init (i : inputs) : bool := init i.

Definition init_latch (s : regs) (i : inputs) : bool :=
  comb_init i || (sync_init s && negb (initialized s)).

(** Signals driven by the [fsm.act] blocks. *)
Record fsm_comb : Type := mkComb {
  ready : bool;
  syncr : bool;
  sclk : bool;
  cnt_load : bool;
  data_load : bool;
  next_state : fsm_state
}.

(** Values before any [act] statement applies: reset levels, and
    [next_state] defaulting to the current state. *)
Definition comb_default (s : regs) : fsm_comb :=
  {| ready := false; syncr := ZotinoPads.syncr_reset;
     sclk := ZotinoPads.sclk_reset; cnt_load := false; data_load := false;
     next_state := state s |}.

Definition fsm_act (s : regs) (i : inputs) : fsm_comb :=
  let d := comb_default s in
  match state s with
  | IDLE =>
      if start i || init i
      then {| ready := true; syncr := true; sclk := sclk d;
              cnt_load := true; data_load := true; next_state := SETUP |}
      else {| ready := true; syncr := true; sclk := sclk d;
              cnt_load := cnt_load d; data_load := data_load d;
              next_state := next_state d |}
  | SETUP =>
      {| ready := ready d; syncr := false; sclk := true;
         cnt_load := true; data_load := data_load d;
         next_state := if bits s =? 0 then DELAY else HOLD |}
  | HOLD =>
      {| ready := ready d; syncr := false; sclk := sclk d;
         cnt_load := true; data_load := data_load d; next_state := SETUP |}
  | DELAY =>
      {| ready := ready d; syncr := false; sclk := sclk d;
         cnt_load := cnt_load d; data_load := data_load d;
         next_state := BUSY_LOW |}
  | BUSY_LOW =>
      {| ready := ready d; syncr := true; sclk := sclk d;
         cnt_load := cnt_load d; data_load := data_load d;
         next_state := if negb (busy i) then BUSY_HIGH else next_state d |}
  | BUSY_HIGH =>
      if busy i && (word_counter s =? 0)
      then {| ready := ready d; syncr := syncr d; sclk := sclk d;
              cnt_load := cnt_load d; data_load := data_load d;
              next_state := IDLE |}
      else if busy i
      then {| ready := ready d; syncr := syncr d; sclk := sclk d;
              cnt_load := true; data_load := data_load d;
              next_state := SETUP |}
      else d
  end.

(** [fsm.ce] is the divider's tick. *)
Definition fsm_ce (s : regs) : bool := clk_cnt_done s.

Definition ongoing (st : fsm_state) (s : regs) : bool :=
  fsm_state_eqb (state s) st.

Definition before_leaving (st : fsm_state) (s : regs) (i : inputs) : bool :=
  fsm_state_eqb (state s) st && negb (fsm_state_eqb (next_state (fsm_act s i)) st).

(** [pads.sdi]: the most significant bit of the shift register. *)
Definition sdi (p : SPIParams) (s : regs) : bool :=
  Migen.msb (sr_width p) (sr_data s).

(** [sample_probe]: the top [data_width] bits of the shift register. *)
Definition sample_probe (p : SPIParams) (s : regs) : Z :=
  Z.shiftr (sr_data s) (sr_width p - data_width p) mod 2 ^ data_width p.

(** ** Synchronous logic: one device-clock cycle *)

Definition set_bits (v : Z) (r : regs) : regs :=
  {| clk_counter := clk_counter r; state := state r; sr_data := sr_data r;
     bits := v; word_counter := word_counter r;
     initialized := initialized r; sync_init := sync_init r |}.
Definition set_sr_data (v : Z) (r : regs) : regs :=
  {| clk_counter := clk_counter r; state := state r; sr_data := v;
     bits := bits r; word_counter := word_counter r;
     initialized := initialized r; sync_init := sync_init r |}.
Definition set_word_counter (v : Z) (r : regs) : regs :=
  {| clk_counter := clk_counter r; state := state r; sr_data := sr_data r;
     bits := bits r; word_counter := v;
     initialized := initialized r; sync_init := sync_init r |}.
Definition set_initialized (v : bool) (r : regs) : regs :=
  {| clk_counter := clk_counter r; state := state r; sr_data := sr_data r;
     bits := bits r; word_counter := word_counter r;
     initialized := v; sync_init := sync_init r |}.
Definition set_sync_init (v : bool) (r : regs) : regs :=
  {| clk_counter := clk_counter r; state := state r; sr_data := sr_data r;
     bits := bits r; word_counter := word_counter r;
     initialized := initialized r; sync_init := v |}.
Definition set_clk_counter (v : Z) (r : regs) : regs :=
  {| clk_counter := v; state := state r; sr_data := sr_data r;
     bits := bits r; word_counter := word_counter r;
     initialized := initialized r; sync_init := sync_init r |}.
Definition set_state (v : fsm_state) (r : regs) : regs :=
  {| clk_counter := clk_counter r; state := v; sr_data := sr_data r;
     bits := bits r; word_counter := word_counter r;
     initialized := initialized r; sync_init := sync_init r |}.

(** A guarded group of assignments. *)
Definition when (c : bool) (f : regs -> regs) (r : regs) : regs :=
  if c then f r else r.

(** The shift used by HOLD and DELAY: [Cat(0, sr_data[:-1])]. *)
Definition shifted (p : SPIParams) (s : regs) : Z :=
  Migen.trunc (sr_width p) (Migen.cat0_drop_msb (sr_width p) (sr_data s)).

(** The clock divider. *)
Definition divider (p : SPIParams) (s : regs) (i : inputs) (r : regs) : regs :=
  if clk_cnt_done s
  then when (cnt_load (fsm_act s i))
         (set_clk_counter (Migen.trunc (clk_counter_width p) (clk_width p - 1))) r
  else set_clk_counter (Migen.trunc (clk_counter_width p) (clk_counter s - 1)) r.

(** The initialisation latch register. *)
Definition init_sync (s : regs) (i : inputs) (r : regs) : regs :=
  when (init i) (set_sync_init true) r.

(** The state register of the clock-enabled FSM. *)
Definition fsm_sync (s : regs) (i : inputs) (r : regs) : regs :=
  when (fsm_ce s) (set_state (next_state (fsm_act s i))) r.

(** The shift/counter datapath.  Every right-hand side reads the registers
    [s] of the current cycle; the statements apply in program order to the
    registers [r] of the next cycle, so a later assignment to the same
    register overrides an earlier one. *)
Definition datapath (p : SPIParams) (s : regs) (i : inputs) (r : regs) : regs :=
  when (fsm_ce s)
    (fun r =>
       let r := when (before_leaving HOLD s i)
                  (fun r => set_sr_data (shifted p s)
                           (set_bits (Migen.trunc (bits_width p) (bits s - 1)) r)) r in
       let r := when (ongoing IDLE s)
                  (fun r =>
                     let r := if init_latch s i && negb (initialized s)
                              then set_word_counter
                                     (Migen.trunc (word_counter_width p) 1) r
                              else set_word_counter
                                     (Migen.trunc (word_counter_width p) (channels p)) r in
                     set_bits (Migen.trunc (bits_width p) (data_width p - 1)) r) r in
       let r := when (before_leaving BUSY_HIGH s i)
                  (fun r =>
                     let r := set_bits (Migen.trunc (bits_width p) (data_width p - 1)) r in
                     when ((word_counter s =? 0) && init_latch s i)
                       (set_initialized true) r) r in
       let r := when (ongoing DELAY s)
                  (fun r => set_sr_data (shifted p s)
                           (set_word_counter
                              (Migen.trunc (word_counter_width p) (word_counter s - 1)) r)) r in
       let r := when (data_load (fsm_act s i))
                  (fun r =>
                     if init_latch s i
                     then set_sr_data
                            (Migen.trunc (sr_width p)
                               (Z.shiftl (Migen.slice_low (data_width p) (dataSPI i))
                                         (data_width p * (channels p - 1)))) r
                     else set_sr_data (Migen.trunc (sr_width p) (dataSPI i)) r) r in
       r) r.

(** One rising edge of the device clock. *)
Definition cycle (p : SPIParams) (s : regs) (i : inputs) : regs :=
  datapath p s i (fsm_sync s i (init_sync s i (divider p s i s))).

(** The pins and the [ready] flag as seen from outside during a cycle. *)
Record pins : Type := mkPins {
  pin_sclk : bool;
  pin_syncr : bool;
  pin_sdi : bool;
  pin_ready : bool
}.

Definition outputs (p : SPIParams) (s : regs) (i : inputs) : pins :=
  {| pin_sclk := sclk (fsm_act s i);
     pin_syncr := syncr (fsm_act s i);
     pin_sdi := sdi p s;
     pin_ready := ready (fsm_act s i) |}.

(** ** Runs *)

(** [run p inp s n]: the registers after [n] cycles from [s], the inputs of
    cycle [k] being [inp k]. *)
Fixpoint run (p : SPIParams) (inp : nat -> inputs) (s : regs) (n : nat) : regs :=
  match n with
  | O => s
  | S n' => cycle p (run p inp s n') (inp n')
  end.

Definition pins_at (p : SPIParams) (inp : nat -> inputs) (s : regs) (n : nat) : pins :=
  outputs p (run p inp s n) (inp n).

(** ** An observer of the pins: the serial receiver of the DAC

    The device shifts [sdi] in on each falling edge of [sclk] while
    chip-select ([syncr]) is low, and closes the word when chip-select
    rises.  The observer sees the pins only. *)

Record dac_rx : Type := mkRx {
  rx_prev : pins;                 (* the pins during the previous cycle *)
  rx_cur : list bool;             (* bits of the open frame, first received first *)
  rx_done : list (list bool)      (* closed frames, oldest first *)
}.

Definition rx_start (o : pins) : dac_rx :=
  {| rx_prev := o; rx_cur := []; rx_done := [] |}.

Definition rx_step (r : dac_rx) (o : pins) : dac_rx :=
  let falling := pin_sclk (rx_prev r) && negb (pin_sclk o) in
  let cur := if falling && negb (pin_syncr (rx_prev r))
             then rx_cur r ++ [pin_sdi (rx_prev r)] else rx_cur r in
  if negb (pin_syncr (rx_prev r)) && pin_syncr o
  then {| rx_prev := o; rx_cur := []; rx_done := rx_done r ++ [cur] |}
  else {| rx_prev := o; rx_cur := cur; rx_done := rx_done r |}.

(** The receiver after it has watched cycles [0 .. n] of a run. *)
Fixpoint received (p : SPIParams) (inp : nat -> inputs) (s : regs) (n : nat) : dac_rx :=
  match n with
  | O => rx_start (pins_at p inp s 0)
  | S n' => rx_step (received p inp s n') (pins_at p inp s n)
  end.

(** What the data latch [d] holds, as the receiver should see it: word [j]
    is channel slot [channels - 1 - j], its bits most significant first. *)
Definition latch_bit (p : SPIParams) (d : Z) (k : Z) : bool :=
  Z.testbit d (sr_width p - 1 - k).

Definition latch_word (p : SPIParams) (d : Z) (j : nat) : list bool :=
  map (fun i => latch_bit p d (Z.of_nat j * data_width p + Z.of_nat i))
      (seq 0 (Z.to_nat (data_width p))).

Definition latch_words (p : SPIParams) (d : Z) (m : nat) : list (list bool) :=
  map (latch_word p d) (seq 0 m).

(** The device eventually answers: [busy] is low again and again, and high
    again and again. *)
Definition busy_responsive (inp : nat -> inputs) : Prop :=
  (forall n, exists m, (n <= m)%nat /\ busy (inp m) = false) /\
  (forall n, exists m, (n <= m)%nat /\ busy (inp m) = true).

(** ** Derived notions used by the proofs *)

(** The next value of [sync_init]. *)
Definition latched (s : regs) (i : inputs) : bool :=
  if init i then true else sync_init s.

(** States in which chip-select is asserted. *)
Definition in_frame (st : fsm_state) : bool :=
  match st with
  | SETUP | HOLD | DELAY => true
  | _ => false
  end.

(** The one condition under which [initialized] is written: a tick that
    leaves BUSY_HIGH with the word counter at 0 while the init latch is set. *)
Definition init_done_tick (s : regs) (i : inputs) : bool :=
  fsm_ce s && before_leaving BUSY_HIGH s i
  && ((word_counter s =? 0) && init_latch s i).

(** Moves of the FSM over which the receiver gathers nothing. *)
Definition quiet_move (a b : fsm_state) : bool :=
  match a, b with
  | SETUP, SETUP | HOLD, HOLD | HOLD, SETUP | DELAY, DELAY
  | BUSY_LOW, BUSY_LOW | BUSY_LOW, BUSY_HIGH
  | BUSY_HIGH, BUSY_HIGH | BUSY_HIGH, SETUP | BUSY_HIGH, IDLE
  | IDLE, IDLE | IDLE, SETUP => true
  | _, _ => false
  end.

(** What matters of a run at cycle [t]: the registers of the datapath and
    what the receiver holds. *)
Record snapshot : Type := mkSnap {
  v_state : fsm_state;
  v_sr : Z;
  v_bits : Z;
  v_wc : Z;
  v_initialized : bool;
  v_cur : list bool;
  v_done : list (list bool)
}.

Definition snap (p : SPIParams) (inp : nat -> inputs) (s0 : regs) (t : nat) : snapshot :=
  mkSnap (state (run p inp s0 t)) (sr_data (run p inp s0 t))
         (bits (run p inp s0 t)) (word_counter (run p inp s0 t))
         (initialized (run p inp s0 t))
         (rx_cur (received p inp s0 t)) (rx_done (received p inp s0 t)).

(** The first [n] bits of a [sr_width]-bit value, most significant first. *)
Definition msbs (p : SPIParams) (x : Z) (n : nat) : list bool :=
  map (fun i => Z.testbit x (sr_width p - 1 - Z.of_nat i)) (seq 0 n).

(** The words a transfer of [m] words drains from a shift register holding [x]. *)
Fixpoint drained (p : SPIParams) (x : Z) (m : nat) : list (list bool) :=
  match m with
  | O => []
  | S m' =>
      msbs p x (Z.to_nat (data_width p))
      :: drained p ((x * 2 ^ data_width p) mod 2 ^ sr_width p) m'
  end.

(** The number of device-clock cycles from one tick to the next while the
    divider is reloaded on every tick. *)
Definition tick_cycles (p : SPIParams) : nat := Z.to_nat (clk_width p).

(** Every register within the range its users rely on.  The reset state
    satisfies it and every cycle preserves it. *)
Definition wf_regs (p : SPIParams) (s : regs) : Prop :=
  0 <= clk_counter s < clk_width p /\
  0 <= sr_data s < 2 ^ sr_width p /\
  0 <= bits s < data_width p /\
  0 <= word_counter s <= channels p /\
  (state s = HOLD -> 1 <= bits s) /\
  (in_frame (state s) = true -> 1 <= word_counter s) /\
  (in_frame (state s) = false -> clk_counter s = 0).

(** The lowest segment of the data latch, most significant bit first. *)
Definition low_word (p : SPIParams) (d : Z) : list bool :=
  map (fun i => Z.testbit d (data_width p - 1 - Z.of_nat i))
      (seq 0 (Z.to_nat (data_width p))).

(** The value an init-style load puts in the shift register. *)
Definition init_load (p : SPIParams) (d : Z) : Z :=
  Z.shiftl (Migen.slice_low (data_width p) d) (data_width p * (channels p - 1)).

(** ** Concrete configurations used as instances *)

(** The configuration of the scenario of the specification. *)
Definition scenario_params : SPIParams := mkParams 4 24 4.

(** A small configuration: 2 channels of 3 bits, 2 cycles per tick. *)
Definition small_params : SPIParams := mkParams 2 3 2.

Definition no_request : inputs := mkInputs false false true 0.

(** A device whose [busy] toggles on every cycle, driven with one request
    during cycle 0 and the latch holding 2 words of 3 bits, 101 and 011. *)
Definition start_once (k : nat) : inputs :=
  mkInputs (Nat.eqb k 0) false (Nat.even k) 43.

Definition init_once (k : nat) : inputs :=
  mkInputs false (Nat.eqb k 0) (Nat.even k) 43.

(** The same inputs with [start] driven to [b]. *)
Definition with_start (b : bool) (i : inputs) : inputs :=
  mkInputs b (init i) (busy i) (dataSPI i).

(** [start_once] with further [start] pulses during cycles 5 and 14, while
    the transfer is in flight. *)
Definition start_repeated (k : nat) : inputs :=
  if (Nat.eqb k 5 || Nat.eqb k 14)%bool then with_start true (start_once k)
  else start_once k.

(** A state in the middle of a word, between two ticks. *)
Definition mid_word : regs :=
  {| clk_counter := 1; state := HOLD; sr_data := 43; bits := 2;
     word_counter := 2; initialized := false; sync_init := false |}.

(** An idle core whose initialisation has been done. *)
Definition idle_initialized : regs :=
  {| clk_counter := 0; state := IDLE; sr_data := 0; bits := 2;
     word_counter := 0; initialized := true; sync_init := true |}.

(** ** The scenario of the specification as a closed-loop simulation

    The testbench holds four distinct 24-bit patterns in the latch, asserts
    [start] during cycle 0 (an IDLE tick, [ready] high), and answers every
    word as the device does: once chip-select has risen, [busy] is low for
    two ticks and then high.  While chip-select is low [busy] rests at its
    reset level, high. *)

Definition scenario_latch : Z := 0xA5A5A55A5A5A123456FEDCBA.

Record tb_sim : Type := mkSim {
  sim_regs : regs;     (* the registers of the core *)
  sim_rx : dac_rx;     (* the receiver watching the pins *)
  sim_high : nat;      (* ticks seen with chip-select high since it rose *)
  sim_ticks : nat      (* divider ticks so far *)
}.

Definition tb_reset (p : SPIParams) : tb_sim :=
  mkSim reset_regs (rx_start (outputs p reset_regs no_request)) 0 0.

Definition tb_busy (high : nat) (o : pins) : bool :=
  if pin_syncr o then (2 <=? high)%nat else true.

Definition tb_inputs (p : SPIParams) (cyc : nat) (x : tb_sim) : inputs :=
  mkInputs (Nat.eqb cyc 0) false
           (tb_busy (sim_high x) (outputs p (sim_regs x) no_request))
           scenario_latch.

Definition tb_step (p : SPIParams) (cyc : nat) (x : tb_sim) : tb_sim :=
  let i := tb_inputs p cyc x in
  let o := outputs p (sim_regs x) i in
  let tick := clk_cnt_done (sim_regs x) in
  let s' := cycle p (sim_regs x) i in
  mkSim s'
        (rx_step (sim_rx x) (outputs p s' no_request))
        (if tick then (if pin_syncr o then S (sim_high x) else 0%nat)
         else sim_high x)
        (if tick then S (sim_ticks x) else sim_ticks x).

(** The simulation states of cycles [cyc .. cyc + n]. *)
Fixpoint tb_run (p : SPIParams) (n : nat) (cyc : nat) (x : tb_sim) : list tb_sim :=
  match n with
  | O => [x]
  | S n' => x :: tb_run p n' (S cyc) (tb_step p cyc x)
  end.

Definition is_idle (x : tb_sim) : bool :=
  fsm_state_eqb (state (sim_regs x)) IDLE.

(** The FSM states in which the divider ticks find the core, in order. *)
Definition tick_states (tr : list tb_sim) : list fsm_state :=
  map (fun x => state (sim_regs x))
      (filter (fun x => clk_cnt_done (sim_regs x)) tr).

(** The ticks of one word of the scenario: 24 SETUP ticks with 23 HOLD ticks
    between them, DELAY, one tick in BUSY_LOW and two in BUSY_HIGH. *)
Definition scenario_word_ticks : list fsm_state :=
  concat (repeat [SETUP; HOLD] 23)
  ++ [SETUP; DELAY; BUSY_LOW; BUSY_HIGH; BUSY_HIGH].

(** The bits of [v], [w] of them, most significant first. *)
Definition word_bits (w : nat) (v : Z) : list bool :=
  map (fun k => Z.testbit v (Z.of_nat (w - 1 - k))) (seq 0 w).

(** ** Further instances *)

(** One start request during cycle 0 to a device that never answers. *)
Definition busy_stuck (k : nat) : inputs :=
  mkInputs (Nat.eqb k 0) false true 43.

(** No request at all. *)
Definition never_asked (k : nat) : inputs := no_request.

(** A start request during cycle 0 and an init request during cycle 1,
    while the transfer is in flight. *)
Definition init_late (k : nat) : inputs :=
  mkInputs (Nat.eqb k 0) (Nat.eqb k 1) (Nat.even k) 43.

(** A state on the tick that ends a HOLD. *)
Definition hold_tick : regs :=
  {| clk_counter := 0; state := HOLD; sr_data := 43; bits := 2;
     word_counter := 2; initialized := false; sync_init := false |}.

(** The number a word stands for, its first bit the most significant. *)
Definition word_value (w : list bool) : Z :=
  fold_left (fun acc (b : bool) => 2 * acc + Z.b2z b) w 0.

(** Channel slot [j] of the data latch: [dataSPI[j*data_width:(j+1)*data_width]]. *)
Definition slot (p : SPIParams) (d : Z) (j : Z) : Z :=
  (d / 2 ^ (data_width p * j)) mod 2 ^ data_width p.

(** The same inputs with the data latch holding [d]. *)
Definition with_data (d : Z) (i : inputs) : inputs :=
  mkInputs (start i) (init i) (busy i) d.

(** The number of words of the transfer that a request accepted in state [s]
    under inputs [i] starts: what the word counter is loaded with. *)
Definition words_of_transfer (p : SPIParams) (s : regs) (i : inputs) : Z :=
  if init_latch s i && negb (initialized s) then 1 else channels p.

(* ------------------------------------------------------------------ *)

(** ** Widths *)

Lemma bits_for_bound (n : Z) : 0 <= n -> n < 2 ^ Migen.bits_for n.
Proof.
  intros Hn. unfold Migen.bits_for.
  destruct (0 <? n) eqn:E.
  - apply Z.ltb_lt in E.
    pose proof (Z.log2_up_spec (n + 1) ltac:(lia)) as [_ H]. lia.
  - apply Z.ltb_ge in E. assert (n = 0) by lia. subst n. reflexivity.
Qed.

Lemma bits_for_nonneg (n : Z) : 0 <= Migen.bits_for n.
Proof.
  unfold Migen.bits_for. destruct (0 <? n).
  - apply Z.log2_up_nonneg.
  - pose proof (Z.log2_up_nonneg (- n)). lia.
Qed.

Lemma width_fits (m v : Z) :
  0 <= v < m -> Migen.trunc (Migen.width_of_max m) v = v.
Proof.
  intros [H0 H1]. unfold Migen.trunc. apply Z.mod_small. split; [exact H0|].
  unfold Migen.width_of_max.
  assert (Hb : m - 1 < 2 ^ Migen.bits_for (m - 1)) by (apply bits_for_bound; lia).
  assert (Hle : 2 ^ Migen.bits_for (m - 1)
                <= 2 ^ Z.max (Migen.bits_for 0) (Migen.bits_for (m - 1))).
  { apply Z.pow_le_mono_r; [lia|]. lia. }
  lia.
Qed.

Lemma trunc_small (w v : Z) : 0 <= v < 2 ^ w -> Migen.trunc w v = v.
Proof. intros H. unfold Migen.trunc. now apply Z.mod_small. Qed.

Lemma trunc_range (w v : Z) : 0 <= w -> 0 <= Migen.trunc w v < 2 ^ w.
Proof.
  intros Hw. unfold Migen.trunc. apply Z.mod_pos_bound.
  apply Z.pow_pos_nonneg; lia.
Qed.

Lemma sr_width_pos (p : SPIParams) : valid_params p -> 1 <= sr_width p.
Proof. intros (Hc & Hd & _). unfold sr_width. nia. Qed.

(** The shift is a multiplication by two within the register's width. *)
Lemma shifted_eq (p : SPIParams) (s : regs) :
  valid_params p -> shifted p s = (2 * sr_data s) mod 2 ^ sr_width p.
Proof.
  intros Hp. pose proof (sr_width_pos p Hp) as Hw.
  unfold shifted, Migen.trunc, Migen.cat0_drop_msb.
  assert (E : 2 ^ sr_width p = 2 * 2 ^ (sr_width p - 1)).
  { rewrite <- Z.pow_succ_r by lia. f_equal. lia. }
  assert (Hnz : 2 ^ (sr_width p - 1) <> 0) by (apply Z.pow_nonzero; lia).
  rewrite E, !Z.mul_mod_distr_l by lia.
  rewrite Z.mod_mod by exact Hnz.
  reflexivity.
Qed.

(** ** The cycle function, state by state *)


(** Stage 1 exposes the guards, stage 2 evaluates them once they are
    decided, stage 3 applies the assignments. *)
Ltac cycle_guards :=
  cbv beta iota zeta delta
    [cycle datapath fsm_sync init_sync divider fsm_ce clk_cnt_done
     before_leaving ongoing fsm_act comb_default latched
     clk_counter state sr_data bits word_counter initialized sync_init
     ready syncr sclk cnt_load data_load next_state fsm_state_eqb].

Ltac cycle_when :=
  cbv beta iota delta
    [when negb andb orb fsm_state_eqb
     ready syncr sclk cnt_load data_load next_state].

Ltac cycle_assign :=
  cbv beta iota delta
    [set_bits set_sr_data set_word_counter set_initialized set_sync_init
     set_clk_counter set_state
     clk_counter state sr_data bits word_counter initialized sync_init].

Lemma cycle_no_tick (p : SPIParams) (s : regs) (i : inputs) :
  clk_counter s <> 0 ->
  cycle p s i =
  mkRegs (Migen.trunc (clk_counter_width p) (clk_counter s - 1)) (state s)
         (sr_data s) (bits s) (word_counter s) (initialized s) (latched s i).
Proof.
  intros H. apply Z.eqb_neq in H. destruct s as [c st sr b wc ini si].
  cbv [clk_counter] in H.
  cbv beta iota zeta delta
    [cycle datapath fsm_sync init_sync divider fsm_ce clk_cnt_done latched
     clk_counter state sr_data bits word_counter initialized sync_init].
  rewrite H. cycle_when. destruct (init i); cycle_assign; reflexivity.
Qed.

Ltac on_tick s Hst Hc :=
  destruct s as [c st sr b wc ini si];
  cbv [state clk_counter word_counter] in *; subst st c;
  cycle_guards; rewrite ?Z.eqb_refl.

Lemma cycle_IDLE_stay (p : SPIParams) (s : regs) (i : inputs) :
  state s = IDLE -> clk_counter s = 0 -> start i || init i = false ->
  cycle p s i =
  mkRegs 0 IDLE (sr_data s)
         (Migen.trunc (bits_width p) (data_width p - 1))
         (Migen.trunc (word_counter_width p)
            (if init_latch s i && negb (initialized s) then 1 else channels p))
         (initialized s) (sync_init s).
Proof.
  intros Hst Hc Hreq. on_tick s Hst Hc.
  rewrite Hreq. apply orb_false_elim in Hreq as [_ Hi]. rewrite Hi.
  cycle_when.
  destruct (init_latch _ _); destruct ini; cycle_when; cycle_assign; reflexivity.
Qed.

Lemma cycle_IDLE_go (p : SPIParams) (s : regs) (i : inputs) :
  state s = IDLE -> clk_counter s = 0 -> start i || init i = true ->
  cycle p s i =
  mkRegs (Migen.trunc (clk_counter_width p) (clk_width p - 1)) SETUP
         (Migen.trunc (sr_width p)
            (if init_latch s i
             then Z.shiftl (Migen.slice_low (data_width p) (dataSPI i))
                           (data_width p * (channels p - 1))
             else dataSPI i))
         (Migen.trunc (bits_width p) (data_width p - 1))
         (Migen.trunc (word_counter_width p)
            (if init_latch s i && negb (initialized s) then 1 else channels p))
         (initialized s) (latched s i).
Proof.
  intros Hst Hc Hreq. on_tick s Hst Hc.
  rewrite Hreq. cycle_when.
  destruct (init_latch _ _); destruct ini; destruct (init i);
    cycle_when; cycle_assign; reflexivity.
Qed.

Lemma cycle_SETUP (p : SPIParams) (s : regs) (i : inputs) :
  state s = SETUP -> clk_counter s = 0 ->
  cycle p s i =
  mkRegs (Migen.trunc (clk_counter_width p) (clk_width p - 1))
         (if bits s =? 0 then DELAY else HOLD)
         (sr_data s) (bits s) (word_counter s) (initialized s) (latched s i).
Proof.
  intros Hst Hc. on_tick s Hst Hc. cycle_when.
  destruct (init i); cycle_assign; reflexivity.
Qed.

Lemma cycle_HOLD (p : SPIParams) (s : regs) (i : inputs) :
  state s = HOLD -> clk_counter s = 0 ->
  cycle p s i =
  mkRegs (Migen.trunc (clk_counter_width p) (clk_width p - 1)) SETUP
         (shifted p s) (Migen.trunc (bits_width p) (bits s - 1))
         (word_counter s) (initialized s) (latched s i).
Proof.
  intros Hst Hc. on_tick s Hst Hc. cycle_when.
  destruct (init i); cycle_assign; reflexivity.
Qed.

Lemma cycle_DELAY (p : SPIParams) (s : regs) (i : inputs) :
  state s = DELAY -> clk_counter s = 0 ->
  cycle p s i =
  mkRegs 0 BUSY_LOW (shifted p s) (bits s)
         (Migen.trunc (word_counter_width p) (word_counter s - 1))
         (initialized s) (latched s i).
Proof.
  intros Hst Hc. on_tick s Hst Hc. cycle_when.
  destruct (init i); cycle_assign; reflexivity.
Qed.

Lemma cycle_BUSY_LOW (p : SPIParams) (s : regs) (i : inputs) :
  state s = BUSY_LOW -> clk_counter s = 0 ->
  cycle p s i =
  mkRegs 0 (if busy i then BUSY_LOW else BUSY_HIGH)
         (sr_data s) (bits s) (word_counter s) (initialized s) (latched s i).
Proof.
  intros Hst Hc. on_tick s Hst Hc.
  destruct (busy i); cycle_when; destruct (init i); cycle_assign; reflexivity.
Qed.

Lemma cycle_BUSY_HIGH_wait (p : SPIParams) (s : regs) (i : inputs) :
  state s = BUSY_HIGH -> clk_counter s = 0 -> busy i = false ->
  cycle p s i =
  mkRegs 0 BUSY_HIGH (sr_data s) (bits s) (word_counter s) (initialized s)
         (latched s i).
Proof.
  intros Hst Hc Hb. on_tick s Hst Hc. rewrite Hb. cycle_when.
  destruct (init i); cycle_assign; reflexivity.
Qed.

Lemma cycle_BUSY_HIGH_next (p : SPIParams) (s : regs) (i : inputs) :
  state s = BUSY_HIGH -> clk_counter s = 0 -> busy i = true ->
  word_counter s <> 0 ->
  cycle p s i =
  mkRegs (Migen.trunc (clk_counter_width p) (clk_width p - 1)) SETUP
         (sr_data s) (Migen.trunc (bits_width p) (data_width p - 1))
         (word_counter s) (initialized s) (latched s i).
Proof.
  intros Hst Hc Hb Hw. apply Z.eqb_neq in Hw. on_tick s Hst Hc.
  rewrite Hb, Hw. cycle_when.
  destruct (init i); cycle_assign; reflexivity.
Qed.

Lemma cycle_BUSY_HIGH_last (p : SPIParams) (s : regs) (i : inputs) :
  state s = BUSY_HIGH -> clk_counter s = 0 -> busy i = true ->
  word_counter s = 0 ->
  cycle p s i =
  mkRegs 0 IDLE (sr_data s) (Migen.trunc (bits_width p) (data_width p - 1))
         0 (if init_latch s i then true else initialized s) (latched s i).
Proof.
  intros Hst Hc Hb Hw. on_tick s Hst Hc. subst wc.
  rewrite Hb, Z.eqb_refl. cycle_when.
  destruct (init_latch _ _); destruct (init i); cycle_when; cycle_assign;
    reflexivity.
Qed.

(** ** Pins as a function of the state *)


Lemma outputs_by_state (p : SPIParams) (s : regs) (i : inputs) :
  outputs p s i =
  mkPins (fsm_state_eqb (state s) SETUP) (negb (in_frame (state s)))
         (sdi p s) (fsm_state_eqb (state s) IDLE).
Proof.
  unfold outputs, fsm_act, comb_default.
  destruct (state s); cbn; try reflexivity.
  - destruct (start i || init i); reflexivity.
  - destruct (busy i && (word_counter s =? 0)); [reflexivity|].
    destruct (busy i); reflexivity.
Qed.

(** ** Registers that only the cycle function writes *)

Lemma sync_init_cycle (p : SPIParams) (s : regs) (i : inputs) :
  sync_init (cycle p s i) = latched s i.
Proof.
  destruct (Z.eq_dec (clk_counter s) 0) as [Hc|Hc].
  2:{ rewrite cycle_no_tick by exact Hc. reflexivity. }
  destruct (state s) eqn:Hst.
  - destruct (start i || init i) eqn:Hreq.
    + rewrite cycle_IDLE_go by assumption. reflexivity.
    + rewrite cycle_IDLE_stay by assumption.
      apply orb_false_elim in Hreq as [_ Hi]. unfold latched. now rewrite Hi.
  - rewrite cycle_SETUP by assumption. reflexivity.
  - rewrite cycle_HOLD by assumption. reflexivity.
  - rewrite cycle_DELAY by assumption. reflexivity.
  - rewrite cycle_BUSY_LOW by assumption. reflexivity.
  - destruct (busy i) eqn:Hb.
    + destruct (Z.eq_dec (word_counter s) 0) as [Hw|Hw].
      * rewrite cycle_BUSY_HIGH_last by assumption. reflexivity.
      * rewrite cycle_BUSY_HIGH_next by assumption. reflexivity.
    + rewrite cycle_BUSY_HIGH_wait by assumption. reflexivity.
Qed.


Lemma before_leaving_BUSY_HIGH (s : regs) (i : inputs) :
  before_leaving BUSY_HIGH s i = fsm_state_eqb (state s) BUSY_HIGH && busy i.
Proof.
  unfold before_leaving, fsm_act, comb_default.
  destruct (state s); try reflexivity.
  destruct (busy i), (word_counter s =? 0); reflexivity.
Qed.

Lemma initialized_cycle (p : SPIParams) (s : regs) (i : inputs) :
  initialized (cycle p s i) = init_done_tick s i || initialized s.
Proof.
  unfold init_done_tick, fsm_ce, clk_cnt_done.
  rewrite before_leaving_BUSY_HIGH.
  destruct (Z.eq_dec (clk_counter s) 0) as [Hc|Hc].
  2:{ rewrite cycle_no_tick by exact Hc. apply Z.eqb_neq in Hc. now rewrite Hc. }
  rewrite Hc, Z.eqb_refl.
  destruct (state s) eqn:Hst; cbn [fsm_state_eqb andb orb].
  - destruct (start i || init i) eqn:Hreq.
    + rewrite cycle_IDLE_go by assumption. reflexivity.
    + rewrite cycle_IDLE_stay by assumption. reflexivity.
  - rewrite cycle_SETUP by assumption. reflexivity.
  - rewrite cycle_HOLD by assumption. reflexivity.
  - rewrite cycle_DELAY by assumption. reflexivity.
  - rewrite cycle_BUSY_LOW by assumption. reflexivity.
  - destruct (busy i) eqn:Hb; cbn [andb orb].
    + destruct (Z.eq_dec (word_counter s) 0) as [Hw|Hw].
      * rewrite cycle_BUSY_HIGH_last by assumption.
        rewrite Hw, Z.eqb_refl. cbn [initialized andb].
        destruct (init_latch s i); reflexivity.
      * rewrite cycle_BUSY_HIGH_next by assumption.
        apply Z.eqb_neq in Hw. rewrite Hw. reflexivity.
    + rewrite cycle_BUSY_HIGH_wait by assumption. reflexivity.
Qed.

(** ** The receiver along a run *)

Lemma rx_step_prev (r : dac_rx) (o : pins) : rx_prev (rx_step r o) = o.
Proof. unfold rx_step. destruct (negb _ && _); reflexivity. Qed.

(** A falling serial-clock edge inside a frame: one more bit. *)
Lemma rx_step_sample (r : dac_rx) (o : pins) :
  pin_sclk (rx_prev r) = true -> pin_sclk o = false ->
  pin_syncr (rx_prev r) = false -> pin_syncr o = false ->
  rx_cur (rx_step r o) = rx_cur r ++ [pin_sdi (rx_prev r)] /\
  rx_done (rx_step r o) = rx_done r.
Proof.
  intros H1 H2 H3 H4. unfold rx_step. rewrite H1, H2, H3, H4. cbn. auto.
Qed.

(** Chip-select rises with the clock already low: the frame is closed. *)
Lemma rx_step_close (r : dac_rx) (o : pins) :
  pin_sclk (rx_prev r) = false ->
  pin_syncr (rx_prev r) = false -> pin_syncr o = true ->
  rx_cur (rx_step r o) = [] /\
  rx_done (rx_step r o) = rx_done r ++ [rx_cur r].
Proof.
  intros H1 H3 H4. unfold rx_step. rewrite H1, H3, H4. cbn. auto.
Qed.

(** No falling clock edge inside a frame and no rising chip-select. *)
Lemma rx_step_quiet (r : dac_rx) (o : pins) :
  pin_sclk (rx_prev r) && negb (pin_sclk o) && negb (pin_syncr (rx_prev r)) = false ->
  negb (pin_syncr (rx_prev r)) && pin_syncr o = false ->
  rx_cur (rx_step r o) = rx_cur r /\ rx_done (rx_step r o) = rx_done r.
Proof.
  intros H1 H2. unfold rx_step. rewrite H1, H2. cbn. auto.
Qed.

Section Run.

Variable p : SPIParams.
Hypothesis Hp : valid_params p.
Variable inp : nat -> inputs.
Variable s0 : regs.

Local Abbreviation St t := (run p inp s0 t).
Local Abbreviation Rx t := (received p inp s0 t).

Lemma run_S (t : nat) : St (S t) = cycle p (St t) (inp t).
Proof. reflexivity. Qed.

Lemma rx_prev_received (t : nat) : rx_prev (Rx t) = pins_at p inp s0 t.
Proof. destruct t; [reflexivity|]. cbn [received]. apply rx_step_prev. Qed.

Lemma pins_at_eq (t : nat) :
  pins_at p inp s0 t =
  mkPins (fsm_state_eqb (state (St t)) SETUP) (negb (in_frame (state (St t))))
         (sdi p (St t)) (fsm_state_eqb (state (St t)) IDLE).
Proof. unfold pins_at. apply outputs_by_state. Qed.

Ltac pins_now :=
  rewrite ?rx_prev_received, ?pins_at_eq;
  cbv beta iota delta [pin_sclk pin_syncr pin_sdi pin_ready].

(** What the receiver gathers over one cycle, from the two FSM states. *)
Lemma received_sample (t : nat) :
  state (St t) = SETUP ->
  state (St (S t)) = HOLD \/ state (St (S t)) = DELAY ->
  rx_cur (Rx (S t)) = rx_cur (Rx t) ++ [sdi p (St t)] /\
  rx_done (Rx (S t)) = rx_done (Rx t).
Proof.
  intros H1 H2.
  replace (sdi p (St t)) with (pin_sdi (rx_prev (Rx t))) by (pins_now; reflexivity).
  cbn [received].
  apply rx_step_sample; pins_now; rewrite ?H1; try reflexivity;
    destruct H2 as [-> | ->]; reflexivity.
Qed.

Lemma received_close (t : nat) :
  state (St t) = DELAY -> state (St (S t)) = BUSY_LOW ->
  rx_cur (Rx (S t)) = [] /\
  rx_done (Rx (S t)) = rx_done (Rx t) ++ [rx_cur (Rx t)].
Proof.
  intros H1 H2. cbn [received].
  apply rx_step_close; pins_now; rewrite ?H1, ?H2; reflexivity.
Qed.


Lemma received_quiet (t : nat) :
  quiet_move (state (St t)) (state (St (S t))) = true ->
  rx_cur (Rx (S t)) = rx_cur (Rx t) /\ rx_done (Rx (S t)) = rx_done (Rx t).
Proof.
  intros H. cbn [received].
  apply rx_step_quiet; pins_now;
    destruct (state (St t)), (state (St (S t))); cbn in *; congruence.
Qed.


(** *** Cycles between ticks *)

Local Abbreviation Sn t := (snap p inp s0 t).

Lemma snap_no_tick (t : nat) :
  clk_counter (St t) <> 0 ->
  Sn (S t) = Sn t /\
  clk_counter (St (S t))
  = Migen.trunc (clk_counter_width p) (clk_counter (St t) - 1).
Proof.
  intros Hc.
  assert (E : St (S t) = _) by (rewrite run_S; apply cycle_no_tick; exact Hc).
  assert (Hq : quiet_move (state (St t)) (state (St (S t))) = true).
  { rewrite E. cbn [state]. destruct (state (St t)); reflexivity. }
  destruct (received_quiet t Hq) as [Hcur Hdone].
  unfold snap. rewrite Hcur, Hdone, E. auto.
Qed.

(** With the divider at [k], the next [k] cycles change nothing but the
    divider. *)
Lemma dwell (k : nat) :
  forall t, clk_counter (St t) = Z.of_nat k -> Z.of_nat k < clk_width p ->
  forall u, (u <= k)%nat ->
    Sn (t + u) = Sn t /\ clk_counter (St (t + u)) = Z.of_nat (k - u).
Proof.
  intros t Hc Hk u. induction u as [|u IH]; intros Hu.
  - rewrite Nat.add_0_r, Nat.sub_0_r. auto.
  - destruct IH as [IHs IHc]; [lia|].
    replace (t + S u)%nat with (S (t + u)) by lia.
    destruct (snap_no_tick (t + u)) as [Es Ec]; [rewrite IHc; lia|].
    rewrite Es, Ec, IHc. split; [exact IHs|].
    unfold clk_counter_width. rewrite width_fits by lia. lia.
Qed.

Local Abbreviation CW := (tick_cycles p).

Lemma CW_pos : (1 <= CW)%nat.
Proof. unfold tick_cycles. destruct Hp as (_ & _ & H). lia. Qed.

Lemma CW_Z : Z.of_nat CW = clk_width p.
Proof. unfold tick_cycles. destruct Hp as (_ & _ & H). lia. Qed.

(** A state entered with the divider reloaded lasts [CW] cycles, the last of
    which is a tick. *)
Lemma period (t : nat) :
  clk_counter (St t) = clk_width p - 1 ->
  clk_counter (St (t + (CW - 1))) = 0 /\
  forall u, (u < CW)%nat -> Sn (t + u) = Sn t.
Proof.
  intros Hc. pose proof CW_pos. pose proof CW_Z.
  assert (Hk : clk_counter (St t) = Z.of_nat (CW - 1)) by lia.
  split.
  - destruct (dwell (CW - 1) t Hk ltac:(lia) (CW - 1)%nat ltac:(lia)) as [_ E].
    rewrite E. lia.
  - intros u Hu. apply (dwell (CW - 1) t Hk ltac:(lia) u). lia.
Qed.

(** *** Ticks, state by state *)

Ltac snap_fields H :=
  unfold snap in H;
  injection H as Hst Hsr Hbits Hwc Hini Hcur Hdone.

Ltac snap_goal E Hc Hd :=
  unfold snap; rewrite Hc, Hd, E;
  cbn [clk_counter state sr_data bits word_counter initialized sync_init].

Lemma tick_SETUP (t : nat) x b m ini c d :
  Sn t = mkSnap SETUP x b m ini c d -> clk_counter (St t) = 0 ->
  Sn (S t) = mkSnap (if b =? 0 then DELAY else HOLD) x b m ini
                    (c ++ [Migen.msb (sr_width p) x]) d /\
  clk_counter (St (S t)) = clk_width p - 1.
Proof.
  intros Hs Hc. snap_fields Hs.
  assert (E : St (S t) = _) by (rewrite run_S; apply cycle_SETUP; assumption).
  assert (Hn : state (St (S t)) = HOLD \/ state (St (S t)) = DELAY).
  { rewrite E. cbn [state]. destruct (bits (St t) =? 0); auto. }
  destruct (received_sample t Hst Hn) as [Ec Ed].
  snap_goal E Ec Ed. unfold sdi, clk_counter_width.
  rewrite Hsr, Hbits, Hwc, Hini, Hcur, Hdone.
  split; [reflexivity|]. apply width_fits. destruct Hp as (_ & _ & H). lia.
Qed.

Lemma tick_HOLD (t : nat) x b m ini c d :
  Sn t = mkSnap HOLD x b m ini c d -> clk_counter (St t) = 0 ->
  0 < b < data_width p * channels p + 1 ->
  Sn (S t) = mkSnap SETUP ((2 * x) mod 2 ^ sr_width p) (b - 1) m ini c d /\
  clk_counter (St (S t)) = clk_width p - 1.
Proof.
  intros Hs Hc Hb. snap_fields Hs.
  assert (E : St (S t) = _) by (rewrite run_S; apply cycle_HOLD; assumption).
  assert (Hq : quiet_move (state (St t)) (state (St (S t))) = true).
  { rewrite E, Hst. reflexivity. }
  destruct (received_quiet t Hq) as [Ec Ed].
  snap_goal E Ec Ed. unfold clk_counter_width, bits_width.
  rewrite shifted_eq by exact Hp.
  rewrite Hsr, Hbits, Hwc, Hini, Hcur, Hdone.
  rewrite !width_fits by (destruct Hp as (_ & _ & H); lia).
  auto.
Qed.

Lemma tick_DELAY (t : nat) x b m ini c d :
  Sn t = mkSnap DELAY x b m ini c d -> clk_counter (St t) = 0 ->
  0 < m < channels p + 1 ->
  Sn (S t) = mkSnap BUSY_LOW ((2 * x) mod 2 ^ sr_width p) b (m - 1) ini
                    [] (d ++ [c]) /\
  clk_counter (St (S t)) = 0.
Proof.
  intros Hs Hc Hm. snap_fields Hs.
  assert (E : St (S t) = _) by (rewrite run_S; apply cycle_DELAY; assumption).
  assert (Hn : state (St (S t)) = BUSY_LOW) by (rewrite E; reflexivity).
  destruct (received_close t Hst Hn) as [Ec Ed].
  snap_goal E Ec Ed. unfold word_counter_width.
  rewrite shifted_eq by exact Hp.
  rewrite Hsr, Hbits, Hwc, Hini, Hcur, Hdone.
  rewrite !width_fits by lia. auto.
Qed.

Lemma tick_BUSY_LOW (t : nat) x b m ini c d :
  Sn t = mkSnap BUSY_LOW x b m ini c d -> clk_counter (St t) = 0 ->
  Sn (S t) = mkSnap (if busy (inp t) then BUSY_LOW else BUSY_HIGH)
                    x b m ini c d /\
  clk_counter (St (S t)) = 0.
Proof.
  intros Hs Hc. snap_fields Hs.
  assert (E : St (S t) = _) by (rewrite run_S; apply cycle_BUSY_LOW; assumption).
  assert (Hq : quiet_move (state (St t)) (state (St (S t))) = true).
  { rewrite E, Hst. cbn [state]. destruct (busy (inp t)); reflexivity. }
  destruct (received_quiet t Hq) as [Ec Ed].
  snap_goal E Ec Ed.
  rewrite Hsr, Hbits, Hwc, Hini, Hcur, Hdone. auto.
Qed.

Lemma tick_BUSY_HIGH_wait (t : nat) x b m ini c d :
  Sn t = mkSnap BUSY_HIGH x b m ini c d -> clk_counter (St t) = 0 ->
  busy (inp t) = false ->
  Sn (S t) = Sn t /\ clk_counter (St (S t)) = 0.
Proof.
  intros Hs Hc Hb. pose proof Hs as Hs'. snap_fields Hs.
  assert (E : St (S t) = _)
    by (rewrite run_S; apply cycle_BUSY_HIGH_wait; assumption).
  assert (Hq : quiet_move (state (St t)) (state (St (S t))) = true).
  { rewrite E, Hst. reflexivity. }
  destruct (received_quiet t Hq) as [Ec Ed].
  rewrite Hs'. snap_goal E Ec Ed.
  rewrite Hsr, Hbits, Hwc, Hini, Hcur, Hdone. auto.
Qed.

Lemma tick_BUSY_HIGH_next (t : nat) x b m ini c d :
  Sn t = mkSnap BUSY_HIGH x b m ini c d -> clk_counter (St t) = 0 ->
  busy (inp t) = true -> m <> 0 ->
  Sn (S t) = mkSnap SETUP x (data_width p - 1) m ini c d /\
  clk_counter (St (S t)) = clk_width p - 1.
Proof.
  intros Hs Hc Hb Hm. snap_fields Hs.
  assert (E : St (S t) = _)
    by (rewrite run_S; apply cycle_BUSY_HIGH_next; congruence).
  assert (Hq : quiet_move (state (St t)) (state (St (S t))) = true).
  { rewrite E, Hst. reflexivity. }
  destruct (received_quiet t Hq) as [Ec Ed].
  snap_goal E Ec Ed. unfold clk_counter_width, bits_width.
  rewrite Hsr, Hwc, Hini, Hcur, Hdone.
  rewrite !width_fits by (destruct Hp as (H1 & H2 & H3); nia).
  auto.
Qed.

Lemma tick_BUSY_HIGH_last (t : nat) x b ini c d :
  Sn t = mkSnap BUSY_HIGH x b 0 ini c d -> clk_counter (St t) = 0 ->
  busy (inp t) = true ->
  Sn (S t) = mkSnap IDLE x (data_width p - 1) 0
                    (if init_latch (St t) (inp t) then true else ini) c d /\
  clk_counter (St (S t)) = 0.
Proof.
  intros Hs Hc Hb. snap_fields Hs.
  assert (E : St (S t) = _)
    by (rewrite run_S; apply cycle_BUSY_HIGH_last; assumption).
  assert (Hq : quiet_move (state (St t)) (state (St (S t))) = true).
  { rewrite E, Hst. reflexivity. }
  destruct (received_quiet t Hq) as [Ec Ed].
  snap_goal E Ec Ed. unfold bits_width.
  rewrite Hsr, Hini, Hcur, Hdone.
  rewrite !width_fits by (destruct Hp as (H1 & H2 & H3); nia).
  auto.
Qed.

(** *** Bits of the shift register *)

Lemma testbit_shifted (w x k : Z) :
  k < w -> Z.testbit ((2 * x) mod 2 ^ w) k = Z.testbit x (k - 1).
Proof.
  intros Hk. destruct (Z.neg_nonneg_cases k) as [Hn|Hn].
  - now rewrite !Z.testbit_neg_r by lia.
  - rewrite Z.mod_pow2_bits_low by lia.
    destruct (Z.eq_dec k 0) as [->|Hk0].
    + rewrite Z.testbit_even_0. now rewrite Z.testbit_neg_r by lia.
    + replace k with (Z.succ (k - 1)) at 1 by lia.
      apply Z.testbit_even_succ. lia.
Qed.

Lemma msbs_S (x : Z) (n : nat) :
  msbs p x (S n)
  = Migen.msb (sr_width p) x :: msbs p ((2 * x) mod 2 ^ sr_width p) n.
Proof.
  unfold msbs. cbn [seq map]. f_equal.
  - unfold Migen.msb. f_equal. lia.
  - rewrite <- seq_shift, map_map. apply map_ext. intros i.
    rewrite testbit_shifted by lia. f_equal. lia.
Qed.

Lemma msbs_snoc (x : Z) (n : nat) (c : list bool) :
  (c ++ [Migen.msb (sr_width p) x]) ++ msbs p ((2 * x) mod 2 ^ sr_width p) n
  = c ++ msbs p x (S n).
Proof. rewrite msbs_S, <- app_assoc. reflexivity. Qed.

Lemma shift_more (x k : Z) :
  0 <= k ->
  (((2 * x) mod 2 ^ sr_width p) * 2 ^ k) mod 2 ^ sr_width p
  = (x * 2 ^ (k + 1)) mod 2 ^ sr_width p.
Proof.
  intros Hk. pose proof (sr_width_pos p Hp).
  rewrite Z.mul_mod_idemp_l by (apply Z.pow_nonzero; lia).
  f_equal. rewrite Z.pow_add_r by lia. lia.
Qed.

(** *** One state of the frame: [CW] cycles, then the tick *)

Lemma phase_tick (t : nat) :
  clk_counter (St t) = clk_width p - 1 ->
  Sn (t + (CW - 1)) = Sn t /\ clk_counter (St (t + (CW - 1))) = 0 /\
  (t + CW = S (t + (CW - 1)))%nat.
Proof.
  intros Hc. pose proof CW_pos. destruct (period t Hc) as [H0 Hu].
  repeat split; [apply Hu; lia | exact H0 | lia].
Qed.

Lemma phase_SETUP (t : nat) x b m ini c d :
  Sn t = mkSnap SETUP x b m ini c d ->
  clk_counter (St t) = clk_width p - 1 ->
  Sn (t + CW) = mkSnap (if b =? 0 then DELAY else HOLD) x b m ini
                       (c ++ [Migen.msb (sr_width p) x]) d /\
  clk_counter (St (t + CW)) = clk_width p - 1 /\
  forall u, (u < CW)%nat -> Sn (t + u) = mkSnap SETUP x b m ini c d.
Proof.
  intros Hs Hc. destruct (phase_tick t Hc) as (E1 & E2 & E3).
  rewrite E3. rewrite <- E1 in Hs.
  destruct (tick_SETUP _ _ _ _ _ _ _ Hs E2) as [T1 T2].
  repeat split; [exact T1 | exact T2 |].
  intros u Hu. destruct (period t Hc) as [_ P]. rewrite P by exact Hu.
  rewrite <- E1. exact Hs.
Qed.

Lemma phase_HOLD (t : nat) x b m ini c d :
  Sn t = mkSnap HOLD x b m ini c d ->
  clk_counter (St t) = clk_width p - 1 ->
  0 < b < data_width p * channels p + 1 ->
  Sn (t + CW) = mkSnap SETUP ((2 * x) mod 2 ^ sr_width p) (b - 1) m ini c d /\
  clk_counter (St (t + CW)) = clk_width p - 1 /\
  forall u, (u < CW)%nat -> Sn (t + u) = mkSnap HOLD x b m ini c d.
Proof.
  intros Hs Hc Hb. destruct (phase_tick t Hc) as (E1 & E2 & E3).
  rewrite E3. rewrite <- E1 in Hs.
  destruct (tick_HOLD _ _ _ _ _ _ _ Hs E2 Hb) as [T1 T2].
  repeat split; [exact T1 | exact T2 |].
  intros u Hu. destruct (period t Hc) as [_ P]. rewrite P by exact Hu.
  rewrite <- E1. exact Hs.
Qed.

Lemma phase_DELAY (t : nat) x b m ini c d :
  Sn t = mkSnap DELAY x b m ini c d ->
  clk_counter (St t) = clk_width p - 1 ->
  0 < m < channels p + 1 ->
  Sn (t + CW) = mkSnap BUSY_LOW ((2 * x) mod 2 ^ sr_width p) b (m - 1) ini
                       [] (d ++ [c]) /\
  clk_counter (St (t + CW)) = 0 /\
  forall u, (u < CW)%nat -> Sn (t + u) = mkSnap DELAY x b m ini c d.
Proof.
  intros Hs Hc Hm. destruct (phase_tick t Hc) as (E1 & E2 & E3).
  rewrite E3. rewrite <- E1 in Hs.
  destruct (tick_DELAY _ _ _ _ _ _ _ Hs E2 Hm) as [T1 T2].
  repeat split; [exact T1 | exact T2 |].
  intros u Hu. destruct (period t Hc) as [_ P]. rewrite P by exact Hu.
  rewrite <- E1. exact Hs.
Qed.

(** *** The bits of one word *)

Lemma data_phase (m : Z) (ini : bool) (d : list (list bool)) (b : nat) :
  forall t x c,
  Sn t = mkSnap SETUP x (Z.of_nat b) m ini c d ->
  clk_counter (St t) = clk_width p - 1 ->
  Z.of_nat b < data_width p ->
  0 <= x < 2 ^ sr_width p ->
  let n := ((2 * b + 1) * CW)%nat in
  Sn (t + n)
  = mkSnap DELAY ((x * 2 ^ Z.of_nat b) mod 2 ^ sr_width p) 0 m ini
           (c ++ msbs p x (S b)) d /\
  clk_counter (St (t + n)) = clk_width p - 1 /\
  forall u, (u < n)%nat ->
    (v_state (Sn (t + u)) = SETUP \/ v_state (Sn (t + u)) = HOLD) /\
    v_initialized (Sn (t + u)) = ini.
Proof.
  pose proof (sr_width_pos p Hp) as HW.
  induction b as [|b IH]; intros t x c Hs Hc Hb Hx n; subst n.
  - destruct (phase_SETUP _ _ _ _ _ _ _ Hs Hc) as (T1 & T2 & T3).
    replace (t + (2 * 0 + 1) * CW)%nat with (t + CW)%nat by lia.
    cbn [Z.of_nat Z.eqb] in T1. rewrite T1, T2.
    repeat split.
    + f_equal.
      * rewrite Z.mul_1_r. symmetry. now apply Z.mod_small.
      * rewrite msbs_S. reflexivity.
    + rewrite T3 by lia. auto.
    + rewrite T3 by lia. reflexivity.
  - destruct (phase_SETUP _ _ _ _ _ _ _ Hs Hc) as (T1 & T2 & T3).
    replace (Z.of_nat (S b) =? 0) with false in T1
      by (symmetry; apply Z.eqb_neq; lia).
    destruct (phase_HOLD _ _ _ _ _ _ _ T1 T2) as (U1 & U2 & U3).
    { destruct Hp as (H1 & H2 & H3). nia. }
    replace (Z.of_nat (S b) - 1) with (Z.of_nat b) in U1 by lia.
    destruct (IH _ _ _ U1 U2) as (V1 & V2 & V3); [lia | |].
    { apply Z.mod_pos_bound. apply Z.pow_pos_nonneg; lia. }
    replace (t + (2 * S b + 1) * CW)%nat
      with (t + CW + CW + (2 * b + 1) * CW)%nat by lia.
    rewrite V1, V2. repeat split.
    + f_equal.
      * rewrite shift_more by lia. do 2 f_equal. lia.
      * apply msbs_snoc.
    + destruct (Nat.lt_ge_cases u CW) as [L1|L1];
        [rewrite T3 by exact L1; auto|].
      destruct (Nat.lt_ge_cases u (CW + CW)) as [L2|L2].
      * replace (t + u)%nat with (t + CW + (u - CW))%nat by lia.
        rewrite U3 by lia. auto.
      * replace (t + u)%nat with (t + CW + CW + (u - (CW + CW)))%nat by lia.
        apply V3. lia.
    + destruct (Nat.lt_ge_cases u CW) as [L1|L1];
        [rewrite T3 by exact L1; reflexivity|].
      destruct (Nat.lt_ge_cases u (CW + CW)) as [L2|L2].
      * replace (t + u)%nat with (t + CW + (u - CW))%nat by lia.
        rewrite U3 by lia. reflexivity.
      * replace (t + u)%nat with (t + CW + CW + (u - (CW + CW)))%nat by lia.
        apply V3. lia.
Qed.

(** *** One frame: the bits of a word, then the DELAY tick *)

Local Abbreviation DW := (Z.to_nat (data_width p)).

Lemma frame_phase (t : nat) x m ini c d :
  Sn t = mkSnap SETUP x (data_width p - 1) m ini c d ->
  clk_counter (St t) = clk_width p - 1 ->
  0 <= x < 2 ^ sr_width p ->
  0 < m < channels p + 1 ->
  let nd := ((2 * DW - 1) * CW)%nat in
  let ne := (2 * DW * CW)%nat in
  Sn (t + ne)
  = mkSnap BUSY_LOW ((x * 2 ^ data_width p) mod 2 ^ sr_width p) 0 (m - 1) ini
           [] (d ++ [c ++ msbs p x DW]) /\
  clk_counter (St (t + ne)) = 0 /\
  (forall u, (u < nd)%nat ->
     (v_state (Sn (t + u)) = SETUP \/ v_state (Sn (t + u)) = HOLD) /\
     v_initialized (Sn (t + u)) = ini) /\
  (forall u, (nd <= u < ne)%nat ->
     v_state (Sn (t + u)) = DELAY /\ v_initialized (Sn (t + u)) = ini).
Proof.
  intros Hs Hc Hx Hm nd ne.
  destruct Hp as (H1 & H2 & H3). pose proof CW_pos as HCW.
  assert (Hb : data_width p - 1 = Z.of_nat (DW - 1)) by lia.
  rewrite Hb in Hs.
  destruct (data_phase _ _ _ _ _ _ _ Hs Hc ltac:(lia) Hx) as (A1 & A2 & A3).
  replace (2 * (DW - 1) + 1)%nat with (2 * DW - 1)%nat in A1, A2, A3 by lia.
  fold nd in A1, A2, A3.
  destruct (phase_DELAY _ _ _ _ _ _ _ A1 A2 Hm) as (B1 & B2 & B3).
  assert (Hne : (ne = nd + CW)%nat) by (unfold ne, nd; nia).
  rewrite Hne, Nat.add_assoc. rewrite B1, B2.
  repeat split.
  - f_equal.
    + rewrite Z.mul_mod_idemp_r by (apply Z.pow_nonzero; unfold sr_width; nia).
      f_equal. replace (data_width p) with (Z.of_nat (DW - 1) + 1) at 2 by lia.
      rewrite Z.pow_add_r by lia. lia.
    + replace (S (DW - 1)) with DW by lia. reflexivity.
  - apply A3; assumption.
  - apply A3; assumption.
  - replace (t + u)%nat with (t + nd + (u - nd))%nat by lia.
    rewrite B3 by lia. reflexivity.
  - replace (t + u)%nat with (t + nd + (u - nd))%nat by lia.
    rewrite B3 by lia. reflexivity.
Qed.

(** *** The busy handshake *)

Lemma first_busy (v : bool) (t : nat) :
  (exists k, (t <= k)%nat /\ busy (inp k) = v) ->
  exists n, busy (inp (t + n)) = v /\
            forall u, (u < n)%nat -> busy (inp (t + u)) = negb v.
Proof.
  intros (k & Hk & Hv).
  remember (k - t)%nat as g eqn:Hg. revert t Hk Hg.
  induction g as [|g IH]; intros t Hk Hg.
  - exists 0%nat. replace (t + 0)%nat with k by lia. split; [exact Hv|]. lia.
  - destruct (Bool.bool_dec (busy (inp t)) v) as [E|E].
    + exists 0%nat. rewrite Nat.add_0_r. split; [exact E|]. lia.
    + destruct (IH (S t)) as (n & N1 & N2); [lia | lia |].
      exists (S n). replace (t + S n)%nat with (S t + n)%nat by lia.
      split; [exact N1|]. intros u Hu. destruct u as [|u].
      * rewrite Nat.add_0_r. destruct (busy (inp t)), v; cbn; congruence.
      * replace (t + S u)%nat with (S t + u)%nat by lia. apply N2. lia.
Qed.

Lemma wait_BUSY_LOW (t : nat) x b m ini c d (n : nat) :
  Sn t = mkSnap BUSY_LOW x b m ini c d -> clk_counter (St t) = 0 ->
  (forall u, (u < n)%nat -> busy (inp (t + u)) = true) ->
  Sn (t + n) = mkSnap BUSY_LOW x b m ini c d /\ clk_counter (St (t + n)) = 0.
Proof.
  intros Hs Hc. induction n as [|n IH]; intros Hb.
  - rewrite Nat.add_0_r. auto.
  - destruct IH as [I1 I2]; [intros; apply Hb; lia|].
    replace (t + S n)%nat with (S (t + n)) by lia.
    destruct (tick_BUSY_LOW _ _ _ _ _ _ _ I1 I2) as [T1 T2].
    rewrite Hb in T1 by lia. auto.
Qed.

Lemma wait_BUSY_HIGH (t : nat) x b m ini c d (n : nat) :
  Sn t = mkSnap BUSY_HIGH x b m ini c d -> clk_counter (St t) = 0 ->
  (forall u, (u < n)%nat -> busy (inp (t + u)) = false) ->
  Sn (t + n) = mkSnap BUSY_HIGH x b m ini c d /\ clk_counter (St (t + n)) = 0.
Proof.
  intros Hs Hc. induction n as [|n IH]; intros Hb.
  - rewrite Nat.add_0_r. auto.
  - destruct IH as [I1 I2]; [intros; apply Hb; lia|].
    replace (t + S n)%nat with (S (t + n)) by lia.
    destruct (tick_BUSY_HIGH_wait _ _ _ _ _ _ _ I1 I2) as [T1 T2];
      [apply Hb; lia|].
    rewrite T1. auto.
Qed.

(** From BUSY_LOW to the tick that leaves BUSY_HIGH, for a device that
    answers: [n] cycles later the FSM is in BUSY_HIGH, [busy] is high and
    the tick is due. *)
Lemma handshake (t : nat) x b m ini c d :
  busy_responsive inp ->
  Sn t = mkSnap BUSY_LOW x b m ini c d -> clk_counter (St t) = 0 ->
  exists n, (0 < n)%nat /\
    Sn (t + n) = mkSnap BUSY_HIGH x b m ini c d /\
    clk_counter (St (t + n)) = 0 /\ busy (inp (t + n)) = true /\
    forall u, (u <= n)%nat ->
      (v_state (Sn (t + u)) = BUSY_LOW \/ v_state (Sn (t + u)) = BUSY_HIGH) /\
      v_initialized (Sn (t + u)) = ini.
Proof.
  intros [Hlow Hhigh] Hs Hc.
  destruct (first_busy false t (Hlow t)) as (n1 & L1 & L2).
  destruct (wait_BUSY_LOW t _ _ _ _ _ _ n1 Hs Hc L2) as [W1 W2].
  destruct (tick_BUSY_LOW _ _ _ _ _ _ _ W1 W2) as [T1 T2].
  rewrite L1 in T1.
  destruct (first_busy true (S (t + n1)) (Hhigh _)) as (n2 & M1 & M2).
  destruct (wait_BUSY_HIGH _ _ _ _ _ _ _ n2 T1 T2 M2) as [X1 X2].
  exists (S n1 + n2)%nat.
  replace (t + (S n1 + n2))%nat with (S (t + n1) + n2)%nat by lia.
  repeat split; try assumption; try lia.
  - destruct (Nat.le_gt_cases u n1) as [Le|Gt].
    + destruct (wait_BUSY_LOW t _ _ _ _ _ _ u Hs Hc) as [Y _].
      { intros; apply L2; lia. }
      rewrite Y. auto.
    + replace (t + u)%nat with (S (t + n1) + (u - S n1))%nat by lia.
      destruct (wait_BUSY_HIGH _ _ _ _ _ _ _ (u - S n1) T1 T2) as [Y _].
      { intros; apply M2; lia. }
      rewrite Y. auto.
  - destruct (Nat.le_gt_cases u n1) as [Le|Gt].
    + destruct (wait_BUSY_LOW t _ _ _ _ _ _ u Hs Hc) as [Y _].
      { intros; apply L2; lia. }
      rewrite Y. reflexivity.
    + replace (t + u)%nat with (S (t + n1) + (u - S n1))%nat by lia.
      destruct (wait_BUSY_HIGH _ _ _ _ _ _ _ (u - S n1) T1 T2) as [Y _].
      { intros; apply M2; lia. }
      rewrite Y. reflexivity.
Qed.

(** *** One word with its handshake *)

Lemma word_phase (t : nat) x m ini d :
  busy_responsive inp ->
  Sn t = mkSnap SETUP x (data_width p - 1) m ini [] d ->
  clk_counter (St t) = clk_width p - 1 ->
  0 <= x < 2 ^ sr_width p ->
  0 < m < channels p + 1 ->
  exists n, (0 < n)%nat /\
    Sn (t + n)
    = mkSnap BUSY_HIGH ((x * 2 ^ data_width p) mod 2 ^ sr_width p) 0 (m - 1)
             ini [] (d ++ [msbs p x DW]) /\
    clk_counter (St (t + n)) = 0 /\ busy (inp (t + n)) = true /\
    forall u, (u <= n)%nat ->
      v_state (Sn (t + u)) <> IDLE /\ v_initialized (Sn (t + u)) = ini.
Proof.
  intros Hr Hs Hc Hx Hm.
  destruct (frame_phase _ _ _ _ _ _ Hs Hc Hx Hm) as (F1 & F2 & F3 & F4).
  cbn [app] in F1.
  destruct (handshake _ _ _ _ _ _ _ Hr F1 F2) as (nh & H0 & H1 & H2 & H3 & H4).
  set (nd := ((2 * DW - 1) * CW)%nat) in *.
  set (ne := (2 * DW * CW)%nat) in *.
  exists (ne + nh)%nat. rewrite Nat.add_assoc.
  repeat split; try assumption; try lia.
  - destruct (Nat.lt_ge_cases u nd) as [L1|L1].
    { destruct (F3 u L1) as [[E|E] _]; rewrite E; discriminate. }
    destruct (Nat.lt_ge_cases u ne) as [L2|L2].
    { destruct (F4 u (conj L1 L2)) as [E _]; rewrite E; discriminate. }
    replace (t + u)%nat with (t + ne + (u - ne))%nat by lia.
    destruct (H4 (u - ne)%nat ltac:(lia)) as [[E|E] _]; rewrite E; discriminate.
  - destruct (Nat.lt_ge_cases u nd) as [L1|L1].
    { apply (F3 u L1). }
    destruct (Nat.lt_ge_cases u ne) as [L2|L2].
    { apply (F4 u (conj L1 L2)). }
    replace (t + u)%nat with (t + ne + (u - ne))%nat by lia.
    apply (H4 (u - ne)%nat). lia.
Qed.

(** *** A whole transfer, from the first SETUP to IDLE *)

Lemma transfer_phase (ini : bool) (m : nat) :
  forall t x d,
  busy_responsive inp ->
  Sn t = mkSnap SETUP x (data_width p - 1) (Z.of_nat (S m)) ini [] d ->
  clk_counter (St t) = clk_width p - 1 ->
  0 <= x < 2 ^ sr_width p ->
  Z.of_nat (S m) <= channels p ->
  exists n xf, (0 < n)%nat /\
    Sn (t + S n)
    = mkSnap IDLE xf (data_width p - 1) 0
             (if init_latch (St (t + n)) (inp (t + n)) then true else ini)
             [] (d ++ drained p x (S m)) /\
    clk_counter (St (t + S n)) = 0 /\
    forall u, (u <= n)%nat ->
      v_state (Sn (t + u)) <> IDLE /\ v_initialized (Sn (t + u)) = ini.
Proof.
  pose proof (sr_width_pos p Hp) as HW.
  induction m as [|m IH]; intros t x d Hr Hs Hc Hx Hm.
  - destruct (word_phase _ _ _ _ _ Hr Hs Hc Hx ltac:(lia))
      as (n & N0 & N1 & N2 & N3 & N4).
    cbn [Z.of_nat Pos.of_succ_nat Z.sub Z.add Z.opp Z.pos_sub] in N1.
    destruct (tick_BUSY_HIGH_last _ _ _ _ _ _ N1 N2 N3) as [T1 T2].
    exists n, ((x * 2 ^ data_width p) mod 2 ^ sr_width p).
    replace (t + S n)%nat with (S (t + n)) by lia.
    repeat split; try assumption; apply N4; assumption.
  - destruct (word_phase _ _ _ _ _ Hr Hs Hc Hx ltac:(lia))
      as (n & N0 & N1 & N2 & N3 & N4).
    replace (Z.of_nat (S (S m)) - 1) with (Z.of_nat (S m)) in N1 by lia.
    destruct (tick_BUSY_HIGH_next _ _ _ _ _ _ _ N1 N2 N3 ltac:(lia)) as [T1 T2].
    destruct (IH (S (t + n)) _ _ Hr T1 T2) as (n' & xf & M0 & M1 & M2 & M3).
    { apply Z.mod_pos_bound. apply Z.pow_pos_nonneg; lia. }
    { lia. }
    exists (S n + n')%nat, xf.
    replace (t + S (S n + n'))%nat with (S (t + n) + S n')%nat by lia.
    replace (t + (S n + n'))%nat with (S (t + n) + n')%nat by lia.
    rewrite M1, M2. repeat split; try lia.
    + f_equal. rewrite <- app_assoc. reflexivity.
    + destruct (Nat.le_gt_cases u n) as [L|L]; [apply N4; exact L|].
      replace (t + u)%nat with (S (t + n) + (u - S n))%nat by lia.
      apply M3. lia.
    + destruct (Nat.le_gt_cases u n) as [L|L]; [apply N4; exact L|].
      replace (t + u)%nat with (S (t + n) + (u - S n))%nat by lia.
      apply M3. lia.
Qed.

(** *** What the receiver has gathered, in terms of the data latch *)

Lemma testbit_shift_mod (w d k q : Z) :
  0 <= k -> q < w ->
  Z.testbit ((d * 2 ^ k) mod 2 ^ w) q = Z.testbit d (q - k).
Proof.
  intros Hk Hq. destruct (Z.neg_nonneg_cases q) as [Hn|Hn].
  - now rewrite !Z.testbit_neg_r by lia.
  - rewrite Z.mod_pow2_bits_low by lia. apply Z.mul_pow2_bits. exact Hk.
Qed.

Lemma drained_latch (d : Z) (m : nat) :
  forall j : nat,
  drained p ((d * 2 ^ (Z.of_nat j * data_width p)) mod 2 ^ sr_width p) m
  = map (latch_word p d) (seq j m).
Proof.
  destruct Hp as (H1 & H2 & H3). pose proof (sr_width_pos p Hp) as HW.
  induction m as [|m IH]; intros j; [reflexivity|].
  cbn [drained seq map]. f_equal.
  - unfold msbs, latch_word, latch_bit. apply map_ext. intros i.
    rewrite testbit_shift_mod by nia. f_equal. lia.
  - rewrite <- IH. f_equal.
    rewrite Z.mul_mod_idemp_l by (apply Z.pow_nonzero; lia).
    f_equal. rewrite <- Z.mul_assoc, <- Z.pow_add_r by nia.
    do 2 f_equal. lia.
Qed.

Lemma drained_normal (d : Z) (m : nat) :
  drained p (Migen.trunc (sr_width p) d) m = latch_words p d m.
Proof.
  unfold latch_words. rewrite <- drained_latch. f_equal.
  cbn [Z.of_nat Z.mul]. rewrite Z.pow_0_r, Z.mul_1_r. reflexivity.
Qed.

Lemma drained_init (d : Z) :
  drained p (Migen.trunc (sr_width p) (init_load p d)) 1 = [low_word p d].
Proof.
  destruct Hp as (H1 & H2 & H3). pose proof (sr_width_pos p Hp) as HW.
  cbn [drained]. f_equal.
  unfold msbs, low_word. apply map_ext_in. intros i Hi.
  apply in_seq in Hi.
  unfold Migen.trunc, init_load, Migen.slice_low, sr_width in *.
  rewrite Z.mod_pow2_bits_low by lia.
  rewrite Z.shiftl_spec by nia.
  rewrite Z.mod_pow2_bits_low by nia. f_equal. nia.
Qed.

(** *** Registers that only grow *)

Lemma sync_init_stays (t u : nat) :
  sync_init (St t) = true -> sync_init (St (t + u)) = true.
Proof.
  intros H. induction u as [|u IH]; [now rewrite Nat.add_0_r|].
  replace (t + S u)%nat with (S (t + u)) by lia.
  rewrite run_S, sync_init_cycle. unfold latched. rewrite IH.
  destruct (init _); reflexivity.
Qed.

Lemma initialized_stays (t u : nat) :
  initialized (St t) = true -> initialized (St (t + u)) = true.
Proof.
  intros H. induction u as [|u IH]; [now rewrite Nat.add_0_r|].
  replace (t + S u)%nat with (S (t + u)) by lia.
  rewrite run_S, initialized_cycle, IH. apply orb_true_r.
Qed.

End Run.

(** ** Register ranges are invariant *)

Lemma wf_reset (p : SPIParams) : valid_params p -> wf_regs p reset_regs.
Proof.
  intros (H1 & H2 & H3). pose proof (sr_width_pos p (conj H1 (conj H2 H3))).
  unfold wf_regs, reset_regs. cbn.
  repeat split; try lia; try discriminate.
Qed.

Ltac wf_after E :=
  rewrite E; unfold wf_regs;
  cbn [clk_counter state sr_data bits word_counter initialized sync_init in_frame];
  unfold clk_counter_width, bits_width, word_counter_width;
  rewrite ?width_fits by nia.

Lemma wf_cycle (p : SPIParams) (s : regs) (i : inputs) :
  valid_params p -> wf_regs p s -> wf_regs p (cycle p s i).
Proof.
  intros Hp Hwf. pose proof (sr_width_pos p Hp) as HW.
  pose proof Hp as (H1 & H2 & H3).
  destruct Hwf as (Wc & Ws & Wb & Ww & Wh & Wf & Wz).
  assert (Hpow : 0 < 2 ^ sr_width p) by (apply Z.pow_pos_nonneg; lia).
  assert (Hsh : 0 <= shifted p s < 2 ^ sr_width p).
  { rewrite shifted_eq by exact Hp. apply Z.mod_pos_bound. exact Hpow. }
  destruct (Z.eq_dec (clk_counter s) 0) as [Hc|Hc].
  2:{ wf_after (cycle_no_tick p s i Hc).
      repeat split; try lia; try assumption.
      intros Hf. specialize (Wz Hf). lia. }
  destruct (state s) eqn:Hst.
  - destruct (start i || init i) eqn:Hreq.
    + wf_after (cycle_IDLE_go p s i Hst Hc Hreq).
      assert (Hm : 1 <= (if init_latch s i && negb (initialized s)
                         then 1 else channels p) <= channels p)
        by (destruct (_ && _); lia).
      rewrite width_fits by lia.
      repeat split; try lia; try discriminate;
        apply trunc_range; lia.
    + wf_after (cycle_IDLE_stay p s i Hst Hc Hreq).
      assert (Hm : 1 <= (if init_latch s i && negb (initialized s)
                         then 1 else channels p) <= channels p)
        by (destruct (_ && _); lia).
      rewrite width_fits by lia.
      repeat split; try lia; try discriminate.
  - wf_after (cycle_SETUP p s i Hst Hc).
    specialize (Wf eq_refl).
    destruct (bits s =? 0) eqn:Hb; cbn [in_frame];
      repeat split; try lia; try discriminate.
  - specialize (Wh eq_refl). specialize (Wf eq_refl).
    wf_after (cycle_HOLD p s i Hst Hc).
    repeat split; try lia; try discriminate.
  - specialize (Wf eq_refl).
    wf_after (cycle_DELAY p s i Hst Hc).
    repeat split; try lia; try discriminate.
  - wf_after (cycle_BUSY_LOW p s i Hst Hc).
    destruct (busy i); cbn [in_frame];
      repeat split; try lia; try discriminate.
  - destruct (busy i) eqn:Hb.
    + destruct (Z.eq_dec (word_counter s) 0) as [Hw|Hw].
      * wf_after (cycle_BUSY_HIGH_last p s i Hst Hc Hb Hw).
        repeat split; try lia; try discriminate.
      * wf_after (cycle_BUSY_HIGH_next p s i Hst Hc Hb Hw).
        repeat split; try lia; try discriminate.
    + wf_after (cycle_BUSY_HIGH_wait p s i Hst Hc Hb).
      repeat split; try lia; try discriminate.
Qed.

Lemma wf_run (p : SPIParams) (inp : nat -> inputs) (s0 : regs) (t : nat) :
  valid_params p -> wf_regs p s0 -> wf_regs p (run p inp s0 t).
Proof.
  intros Hp H0. induction t as [|t IH]; [exact H0|].
  cbn [run]. apply wf_cycle; assumption.
Qed.

(** ** A transfer, from the tick that accepts the request to IDLE *)

Section Transfer.

Variable p : SPIParams.
Hypothesis Hp : valid_params p.
Variable inp : nat -> inputs.
Variable s0 : regs.

Local Abbreviation St t := (run p inp s0 t).
Local Abbreviation Rx t := (received p inp s0 t).
Local Abbreviation Sn t := (snap p inp s0 t).

(** The tick that accepts a request: the shift register and both counters
    are loaded and the FSM enters SETUP. *)
Lemma accept_tick (t : nat) :
  state (St t) = IDLE -> clk_counter (St t) = 0 ->
  start (inp t) || init (inp t) = true ->
  Sn (S t)
  = mkSnap SETUP
      (Migen.trunc (sr_width p)
         (if init_latch (St t) (inp t)
          then init_load p (dataSPI (inp t)) else dataSPI (inp t)))
      (data_width p - 1)
      (if init_latch (St t) (inp t) && negb (initialized (St t))
       then 1 else channels p)
      (initialized (St t)) (rx_cur (Rx t)) (rx_done (Rx t)) /\
  clk_counter (St (S t)) = clk_width p - 1.
Proof.
  intros Hst Hc Hreq. destruct Hp as (H1 & H2 & H3).
  assert (E : St (S t) = _)
    by (rewrite (run_S p inp s0); apply cycle_IDLE_go; assumption).
  assert (Hq : quiet_move (state (St t)) (state (St (S t))) = true).
  { rewrite E, Hst. reflexivity. }
  destruct (received_quiet p inp s0 t Hq) as [Ec Ed].
  unfold snap. rewrite Ec, Ed, E.
  cbn [clk_counter state sr_data bits word_counter initialized sync_init].
  unfold clk_counter_width, bits_width, word_counter_width, init_load.
  assert (Hm : 1 <= (if init_latch (St t) (inp t) && negb (initialized (St t))
                     then 1 else channels p) <= channels p)
    by (destruct (_ && _); lia).
  rewrite !width_fits by nia. auto.
Qed.

Lemma transfer_from_idle (t : nat) (m : nat) :
  busy_responsive inp ->
  state (St t) = IDLE -> clk_counter (St t) = 0 ->
  start (inp t) || init (inp t) = true ->
  rx_cur (Rx t) = [] ->
  (if init_latch (St t) (inp t) && negb (initialized (St t))
   then 1 else channels p) = Z.of_nat (S m) ->
  exists n, (0 < n)%nat /\
    state (St (t + S (S n))) = IDLE /\
    clk_counter (St (t + S (S n))) = 0 /\
    rx_cur (Rx (t + S (S n))) = [] /\
    rx_done (Rx (t + S (S n)))
    = rx_done (Rx t)
      ++ drained p (Migen.trunc (sr_width p)
                      (if init_latch (St t) (inp t)
                       then init_load p (dataSPI (inp t))
                       else dataSPI (inp t))) (S m) /\
    initialized (St (t + S (S n)))
    = (if init_latch (St (t + S n)) (inp (t + S n))
       then true else initialized (St t)) /\
    forall u, (u <= S n)%nat ->
      ((0 < u)%nat -> state (St (t + u)) <> IDLE) /\
      initialized (St (t + u)) = initialized (St t).
Proof.
  intros Hr Hst Hc Hreq Hcur Hm.
  pose proof (sr_width_pos p Hp) as HW.
  assert (Hle : Z.of_nat (S m) <= channels p).
  { destruct Hp as (H1 & _). rewrite <- Hm.
    destruct (init_latch (St t) (inp t) && negb (initialized (St t))); lia. }
  destruct (accept_tick t Hst Hc Hreq) as [A1 A2].
  rewrite Hcur, Hm in A1.
  destruct (transfer_phase p Hp inp s0 _ m _ _ _ Hr A1 A2)
    as (n & xf & N0 & N1 & N2 & N3).
  { apply trunc_range. lia. }
  { exact Hle. }
  exists n. replace (t + S (S n))%nat with (S t + S n)%nat by lia.
  replace (t + S n)%nat with (S t + n)%nat by lia.
  unfold snap in N1. injection N1 as E1 E2 E3 E4 E5 E6 E7.
  repeat split; try assumption.
  - intros Hu0. destruct u as [|u]; [lia|].
    replace (t + S u)%nat with (S t + u)%nat by lia.
    apply (N3 u). lia.
  - destruct u as [|u]; [now rewrite Nat.add_0_r|].
    replace (t + S u)%nat with (S t + u)%nat by lia.
    apply (N3 u). lia.
Qed.

End Transfer.

(** ** The transfers as the receiver sees them *)

Lemma latch_words_length (p : SPIParams) (d : Z) (m : nat) :
  length (latch_words p d m) = m.
Proof. unfold latch_words. now rewrite length_map, length_seq. Qed.

Lemma latch_words_widths (p : SPIParams) (d : Z) (m : nat) :
  Forall (fun w => length w = Z.to_nat (data_width p)) (latch_words p d m).
Proof.
  unfold latch_words. apply Forall_map, Forall_forall. intros j _.
  unfold latch_word. now rewrite length_map, length_seq.
Qed.

Lemma channels_as_nat (p : SPIParams) :
  valid_params p -> channels p = Z.of_nat (S (Z.to_nat (channels p) - 1)).
Proof. intros (H & _). lia. Qed.

(** A normal transfer in the model of the circuit: the receiver collects
    exactly [channels] words of [data_width] bits, most significant bit
    first, equal to the words of the latch that was loaded, and the FSM is
    back in IDLE. *)
Lemma normal_transfer_words
  (p : SPIParams) (inp : nat -> inputs) (s0 : regs) :
  valid_params p ->
  state s0 = IDLE -> clk_cnt_done s0 = true ->
  start (inp 0%nat) = true -> init_latch s0 (inp 0%nat) = false ->
  busy_responsive inp ->
  exists n, (0 < n)%nat /\
    state (run p inp s0 n) = IDLE /\
    (forall k, (0 < k < n)%nat -> state (run p inp s0 k) <> IDLE) /\
    rx_cur (received p inp s0 n) = [] /\
    rx_done (received p inp s0 n)
    = latch_words p (dataSPI (inp 0%nat)) (Z.to_nat (channels p)) /\
    length (rx_done (received p inp s0 n)) = Z.to_nat (channels p) /\
    Forall (fun w => length w = Z.to_nat (data_width p))
           (rx_done (received p inp s0 n)).
Proof.
  intros Hp Hst Hc Hstart Hil Hr.
  apply Z.eqb_eq in Hc.
  destruct (transfer_from_idle p Hp inp s0 0 (Z.to_nat (channels p) - 1) Hr)
    as (n & N0 & N1 & N2 & N3 & N4 & N5 & N6);
    try assumption; try reflexivity.
  { cbn [run]. rewrite Hstart. reflexivity. }
  { cbn [run]. rewrite Hil. cbn [andb]. apply channels_as_nat, Hp. }
  change (run p inp s0 0) with s0 in N4.
  change (rx_done (received p inp s0 0)) with (@nil (list bool)) in N4.
  rewrite Hil, app_nil_l, drained_normal in N4 by exact Hp.
  replace (S (Z.to_nat (channels p) - 1)) with (Z.to_nat (channels p)) in N4
    by (destruct Hp as (H & _); lia).
  exists (S (S n)). change (0 + S (S n))%nat with (S (S n)) in *.
  repeat split; try assumption; try lia.
  - intros k [Hk0 Hk]. apply (N6 k); lia.
  - rewrite N4. apply latch_words_length.
  - rewrite N4. apply latch_words_widths.
Qed.

Lemma toggling_busy_responsive (inp : nat -> inputs) :
  (forall k, busy (inp k) = Nat.even k) -> busy_responsive inp.
Proof.
  intros H. split; intros n; destruct (Nat.even n) eqn:E.
  - exists (S n). split; [lia|]. rewrite H, Nat.even_succ, <- Nat.negb_even, E.
    reflexivity.
  - exists n. split; [lia|]. now rewrite H.
  - exists n. split; [lia|]. now rewrite H.
  - exists (S n). split; [lia|]. rewrite H, Nat.even_succ, <- Nat.negb_even, E.
    reflexivity.
Qed.

(** Which configurations can be built. *)
Lemma SPI_init_built (p : SPIParams) :
  SPI_init p <> None <->
  1 <= channels p /\ 1 <= data_width p /\ 2 <= clk_width p.
Proof.
  unfold SPI_init, Migen.signal_max.
  destruct (0 <? clk_width p - 1) eqn:E1;
    destruct (0 <? data_width p * channels p + 1 - 1) eqn:E2;
    destruct (0 <? channels p + 1 - 1) eqn:E3;
    destruct (1 <=? clk_width p) eqn:E4;
    try apply Z.ltb_lt in E1; try apply Z.ltb_ge in E1;
    try apply Z.ltb_lt in E2; try apply Z.ltb_ge in E2;
    try apply Z.ltb_lt in E3; try apply Z.ltb_ge in E3;
    try apply Z.leb_le in E4; try apply Z.leb_gt in E4;
    split; intros H; try congruence; try nia;
    try (exfalso; nia); try discriminate.
Qed.

Lemma SPI_init_widths (p : SPIParams) (w : SPISignals) :
  SPI_init p = Some w ->
  clk_counter_bits w = clk_counter_width p /\
  bits_bits w = bits_width p /\
  word_counter_bits w = word_counter_width p.
Proof.
  unfold SPI_init, Migen.signal_max.
  destruct (0 <? clk_width p - 1); [|discriminate].
  destruct (0 <? data_width p * channels p + 1 - 1); [|discriminate].
  destruct (0 <? channels p + 1 - 1); [|discriminate].
  destruct (1 <=? clk_width p); [|discriminate].
  intros E. injection E as <-. auto.
Qed.

(** C1 (the code fails it at [clk_width = 1]): a configuration with
    [clk_width = 1] passes the module's own [assert params.clk_width >= 1],
    yet the module cannot be built for it, [Signal(max = 1)] raising before
    that assertion is reached.  For every configuration that is built
    ([channels >= 1], [data_width >= 1], [clk_width >= 2]) and every data
    latch value, a normal transfer started from IDLE by an accepted start
    request returns to IDLE (the device answering the busy handshake), and
    until then the serial-data line carries exactly [channels] words of
    [data_width] bits each, most significant bit first, equal to the words
    of the latch that was loaded. *)
Theorem normal_transfer_where_built :
  (forall ch dw : Z,
     (1 <=? clk_width (mkParams ch dw 1)) = true /\
     Migen.signal_max (clk_width (mkParams ch dw 1)) = None /\
     SPI_init (mkParams ch dw 1) = None) /\
  valid_params (mkParams 4 24 1) /\
  (forall (p : SPIParams) (inp : nat -> inputs) (s0 : regs),
     SPI_init p <> None ->
     state s0 = IDLE -> clk_cnt_done s0 = true ->
     start (inp 0%nat) = true -> init_latch s0 (inp 0%nat) = false ->
     busy_responsive inp ->
     exists n, (0 < n)%nat /\
       state (run p inp s0 n) = IDLE /\
       (forall k, (0 < k < n)%nat -> state (run p inp s0 k) <> IDLE) /\
       rx_cur (received p inp s0 n) = [] /\
       rx_done (received p inp s0 n)
       = latch_words p (dataSPI (inp 0%nat)) (Z.to_nat (channels p)) /\
       length (rx_done (received p inp s0 n)) = Z.to_nat (channels p) /\
       Forall (fun w => length w = Z.to_nat (data_width p))
              (rx_done (received p inp s0 n))).
Proof.
  split; [|split].
  - intros ch dw. repeat split.
  - cbv. intuition discriminate.
  - intros p inp s0 Hb. apply SPI_init_built in Hb.
    apply normal_transfer_words. unfold valid_params. lia.
Qed.

Lemma normal_transfer_where_built_witness :
  SPI_init small_params <> None /\
  busy_responsive start_once /\
  exists n, (0 < n)%nat /\
    state (run small_params start_once reset_regs n) = IDLE /\
    (forall k, (0 < k < n)%nat ->
       state (run small_params start_once reset_regs k) <> IDLE) /\
    rx_cur (received small_params start_once reset_regs n) = [] /\
    rx_done (received small_params start_once reset_regs n)
    = latch_words small_params 43 2 /\
    length (rx_done (received small_params start_once reset_regs n)) = 2%nat /\
    Forall (fun w => length w = 3%nat)
           (rx_done (received small_params start_once reset_regs n)).
Proof.
  assert (Hb : SPI_init small_params <> None) by (vm_compute; discriminate).
  assert (Hr : busy_responsive start_once)
    by (apply toggling_busy_responsive; reflexivity).
  split; [exact Hb|]. split; [exact Hr|].
  apply (proj2 (proj2 normal_transfer_where_built)
           small_params start_once reset_regs Hb);
    [reflexivity | reflexivity | reflexivity | reflexivity | exact Hr].
Defined.

(** C3: an init transfer started from IDLE on a core that is not yet
    initialized sends exactly one word of [data_width] bits, the lowest
    segment of the latch (not [channels] words); [initialized] is low until
    the transfer completes, is set by its completion and stays set ever
    after; and from any IDLE state with [initialized] set, a start request
    without init runs a normal transfer of [channels] words of the latch. *)
Theorem init_transfer_then_normal
  (p : SPIParams) (inp : nat -> inputs) (s0 : regs) :
  valid_params p ->
  state s0 = IDLE -> clk_cnt_done s0 = true -> initialized s0 = false ->
  init (inp 0%nat) = true ->
  busy_responsive inp ->
  exists n, (0 < n)%nat /\
    state (run p inp s0 n) = IDLE /\
    (forall k, (0 < k < n)%nat -> state (run p inp s0 k) <> IDLE) /\
    rx_cur (received p inp s0 n) = [] /\
    rx_done (received p inp s0 n) = [low_word p (dataSPI (inp 0%nat))] /\
    (forall k, (k < n)%nat -> initialized (run p inp s0 k) = false) /\
    (forall k, (n <= k)%nat -> initialized (run p inp s0 k) = true) /\
    (forall inp', start (inp' 0%nat) = true -> init (inp' 0%nat) = false ->
       busy_responsive inp' ->
       exists n', (0 < n')%nat /\
         state (run p inp' (run p inp s0 n) n') = IDLE /\
         (forall k, (0 < k < n')%nat ->
            state (run p inp' (run p inp s0 n) k) <> IDLE) /\
         rx_done (received p inp' (run p inp s0 n) n')
         = latch_words p (dataSPI (inp' 0%nat)) (Z.to_nat (channels p))).
Proof.
  intros Hp Hst Hc Hini Hinit Hr.
  apply Z.eqb_eq in Hc.
  assert (Hil : init_latch s0 (inp 0%nat) = true)
    by (unfold init_latch, comb_init; now rewrite Hinit).
  destruct (transfer_from_idle p Hp inp s0 0 0 Hr)
    as (n & N0 & N1 & N2 & N3 & N4 & N5 & N6);
    try assumption; try reflexivity.
  { cbn [run]. rewrite Hinit. apply orb_true_r. }
  { cbn [run]. rewrite Hil, Hini. reflexivity. }
  change (0 + S (S n))%nat with (S (S n)) in *.
  change (0 + S n)%nat with (S n) in *.
  change (run p inp s0 0) with s0 in *.
  change (rx_done (received p inp s0 0)) with (@nil (list bool)) in N4.
  rewrite Hil, app_nil_l, drained_init in N4 by exact Hp.
  assert (Hsi : sync_init (run p inp s0 (S n)) = true).
  { apply (sync_init_stays p inp s0 1 n).
    rewrite (run_S p inp s0), sync_init_cycle. unfold latched.
    change (run p inp s0 0) with s0. now rewrite Hinit. }
  assert (Hbefore : forall k, (k < S (S n))%nat ->
                      initialized (run p inp s0 k) = false).
  { intros k Hk. destruct (N6 k ltac:(lia)) as [_ E]. cbn [Nat.add] in E.
    now rewrite E. }
  assert (Hdone : initialized (run p inp s0 (S (S n))) = true).
  { rewrite N5. unfold init_latch. rewrite Hsi, (Hbefore (S n)) by lia.
    destruct (comb_init _); reflexivity. }
  exists (S (S n)).
  repeat split; try assumption; try lia.
  - intros k [Hk0 Hk]. apply (N6 k); lia.
  - intros k Hk. replace k with (S (S n) + (k - S (S n)))%nat by lia.
    apply initialized_stays. exact Hdone.
  - intros inp' Hs' Hi' Hr'.
    set (s1 := run p inp s0 (S (S n))) in *.
    assert (Hil' : init_latch s1 (inp' 0%nat) = false).
    { unfold init_latch, comb_init. rewrite Hi', Hdone.
      destruct (sync_init s1); reflexivity. }
    destruct (transfer_from_idle p Hp inp' s1 0 (Z.to_nat (channels p) - 1) Hr')
      as (n' & M0 & M1 & M2 & M3 & M4 & M5 & M6);
      try assumption; try reflexivity.
    { cbn [run]. rewrite Hs'. reflexivity. }
    { cbn [run]. rewrite Hil'. cbn [andb]. apply channels_as_nat, Hp. }
    change (0 + S (S n'))%nat with (S (S n')) in *.
    change (run p inp' s1 0) with s1 in *.
    change (rx_done (received p inp' s1 0)) with (@nil (list bool)) in M4.
    rewrite Hil', app_nil_l, drained_normal in M4 by exact Hp.
    replace (S (Z.to_nat (channels p) - 1)) with (Z.to_nat (channels p)) in M4
      by (destruct Hp as (H & _); lia).
    exists (S (S n')). repeat split; try assumption; try lia.
    intros k [Hk0 Hk]. apply (M6 k); lia.
Qed.

Lemma init_transfer_then_normal_witness :
  valid_params small_params /\
  busy_responsive init_once /\
  exists n, (0 < n)%nat /\
    state (run small_params init_once reset_regs n) = IDLE /\
    (forall k, (0 < k < n)%nat ->
       state (run small_params init_once reset_regs k) <> IDLE) /\
    rx_cur (received small_params init_once reset_regs n) = [] /\
    rx_done (received small_params init_once reset_regs n)
    = [low_word small_params 43] /\
    (forall k, (k < n)%nat ->
       initialized (run small_params init_once reset_regs k) = false) /\
    (forall k, (n <= k)%nat ->
       initialized (run small_params init_once reset_regs k) = true) /\
    (forall inp', start (inp' 0%nat) = true -> init (inp' 0%nat) = false ->
       busy_responsive inp' ->
       exists n', (0 < n')%nat /\
         state (run small_params inp'
                  (run small_params init_once reset_regs n) n') = IDLE /\
         (forall k, (0 < k < n')%nat ->
            state (run small_params inp'
                     (run small_params init_once reset_regs n) k) <> IDLE) /\
         rx_done (received small_params inp'
                    (run small_params init_once reset_regs n) n')
         = latch_words small_params (dataSPI (inp' 0%nat)) 2).
Proof.
  assert (Hv : valid_params small_params) by (cbv; intuition discriminate).
  assert (Hr : busy_responsive init_once)
    by (apply toggling_busy_responsive; reflexivity).
  split; [exact Hv|]. split; [exact Hr|].
  apply (init_transfer_then_normal small_params init_once reset_regs Hv);
    [reflexivity | reflexivity | reflexivity | reflexivity | exact Hr].
Defined.

(** ** Chip-select framing *)

Lemma frame_entry (p : SPIParams) (s : regs) (i i' : inputs) :
  valid_params p -> wf_regs p s ->
  pin_syncr (outputs p s i) = true ->
  pin_syncr (outputs p (cycle p s i) i') = false ->
  (state s = IDLE \/ state s = BUSY_HIGH) /\
  state (cycle p s i) = SETUP /\
  bits (cycle p s i) = data_width p - 1 /\
  clk_counter (cycle p s i) = clk_width p - 1.
Proof.
  intros Hp Hwf. pose proof Hp as (H1 & H2 & H3).
  destruct Hwf as (_ & _ & _ & _ & _ & _ & Wz).
  rewrite !outputs_by_state. cbn [pin_syncr].
  intros Hhi Hlo. apply negb_true_iff in Hhi. apply negb_false_iff in Hlo.
  specialize (Wz Hhi).
  destruct (state s) eqn:Hst; try discriminate Hhi.
  - destruct (start i || init i) eqn:Hreq.
    + rewrite (cycle_IDLE_go p s i Hst Wz Hreq) in *.
      cbn [state bits clk_counter]. unfold bits_width, clk_counter_width.
      rewrite !width_fits by nia. auto.
    + rewrite (cycle_IDLE_stay p s i Hst Wz Hreq) in Hlo. discriminate Hlo.
  - rewrite (cycle_BUSY_LOW p s i Hst Wz) in Hlo. cbn [state] in Hlo.
    destruct (busy i); discriminate Hlo.
  - destruct (busy i) eqn:Hb.
    + destruct (Z.eq_dec (word_counter s) 0) as [Hw|Hw].
      * rewrite (cycle_BUSY_HIGH_last p s i Hst Wz Hb Hw) in Hlo.
        discriminate Hlo.
      * rewrite (cycle_BUSY_HIGH_next p s i Hst Wz Hb Hw) in *.
        cbn [state bits clk_counter]. unfold bits_width, clk_counter_width.
        rewrite !width_fits by nia. auto.
    + rewrite (cycle_BUSY_HIGH_wait p s i Hst Wz Hb) in Hlo. discriminate Hlo.
Qed.

(** C4: for every word of every transfer, that is, whenever chip-select
    falls: it stays low for the [2 * data_width - 1] ticks of the SETUP/HOLD
    states that clock the bits of the word and for the one further tick of
    DELAY, without interruption, and is high in the BUSY_LOW tick that
    follows, before any reassertion. *)
Theorem chip_select_frames_each_word
  (p : SPIParams) (inp : nat -> inputs) (s0 : regs) (t : nat) :
  valid_params p -> wf_regs p s0 ->
  pin_syncr (pins_at p inp s0 t) = true ->
  pin_syncr (pins_at p inp s0 (S t)) = false ->
  let nd := ((2 * Z.to_nat (data_width p) - 1) * tick_cycles p)%nat in
  let ne := (nd + tick_cycles p)%nat in
  (forall u, (u < ne)%nat -> pin_syncr (pins_at p inp s0 (S t + u)) = false) /\
  (forall u, (u < nd)%nat ->
     state (run p inp s0 (S t + u)) = SETUP \/
     state (run p inp s0 (S t + u)) = HOLD) /\
  (forall u, (nd <= u < ne)%nat -> state (run p inp s0 (S t + u)) = DELAY) /\
  state (run p inp s0 (S t + ne)) = BUSY_LOW /\
  clk_cnt_done (run p inp s0 (S t + ne)) = true /\
  pin_syncr (pins_at p inp s0 (S t + ne)) = true.
Proof.
  intros Hp Hwf Hhi Hlo nd ne.
  pose proof (wf_run p inp s0 t Hp Hwf) as Wt.
  pose proof (wf_run p inp s0 (S t) Hp Hwf) as WS.
  unfold pins_at in Hhi, Hlo. rewrite (run_S p inp s0) in Hlo.
  destruct (frame_entry p _ _ _ Hp Wt Hhi Hlo) as (_ & E1 & E2 & E3).
  rewrite <- (run_S p inp s0) in E1, E2, E3.
  destruct WS as (_ & Ws & _ & Ww & _ & Wf & _).
  rewrite E1 in Wf. specialize (Wf eq_refl).
  assert (Hs : snap p inp s0 (S t)
               = mkSnap SETUP (sr_data (run p inp s0 (S t))) (data_width p - 1)
                   (word_counter (run p inp s0 (S t)))
                   (initialized (run p inp s0 (S t)))
                   (rx_cur (received p inp s0 (S t)))
                   (rx_done (received p inp s0 (S t)))).
  { unfold snap. rewrite E1, E2. reflexivity. }
  destruct (frame_phase p Hp inp s0 _ _ _ _ _ _ Hs E3 Ws ltac:(lia))
    as (F1 & F2 & F3 & F4).
  assert (Hne : (ne = 2 * Z.to_nat (data_width p) * tick_cycles p)%nat).
  { unfold ne, nd. destruct Hp as (_ & H2 & _). nia. }
  fold nd in F3, F4. rewrite <- Hne in F1, F2, F4.
  assert (Hfr : forall u, (u < ne)%nat ->
                  in_frame (state (run p inp s0 (S t + u))) = true).
  { intros u Hu. destruct (Nat.lt_ge_cases u nd) as [L|L].
    - destruct (F3 u L) as [[E|E] _]; cbn [snap v_state] in E; now rewrite E.
    - destruct (F4 u (conj L Hu)) as [E _]; cbn [snap v_state] in E;
        now rewrite E. }
  assert (Hbl : state (run p inp s0 (S t + ne)) = BUSY_LOW).
  { unfold snap in F1. now injection F1. }
  repeat split.
  - intros u Hu. rewrite pins_at_eq. cbn [pin_syncr]. now rewrite Hfr.
  - intros u Hu. apply (F3 u Hu).
  - intros u Hu. apply (F4 u Hu).
  - exact Hbl.
  - unfold clk_cnt_done. rewrite F2. reflexivity.
  - rewrite pins_at_eq. cbn [pin_syncr]. now rewrite Hbl.
Qed.

Lemma chip_select_frames_each_word_witness :
  valid_params small_params /\ wf_regs small_params reset_regs /\
  (forall u, (u < 12)%nat ->
     pin_syncr (pins_at small_params start_once reset_regs (1 + u)) = false) /\
  (forall u, (u < 10)%nat ->
     state (run small_params start_once reset_regs (1 + u)) = SETUP \/
     state (run small_params start_once reset_regs (1 + u)) = HOLD) /\
  (forall u, (10 <= u < 12)%nat ->
     state (run small_params start_once reset_regs (1 + u)) = DELAY) /\
  state (run small_params start_once reset_regs 13) = BUSY_LOW /\
  clk_cnt_done (run small_params start_once reset_regs 13) = true /\
  pin_syncr (pins_at small_params start_once reset_regs 13) = true.
Proof.
  assert (Hv : valid_params small_params) by (cbv; intuition discriminate).
  split; [exact Hv|]. split; [apply wf_reset; exact Hv|].
  apply (chip_select_frames_each_word small_params start_once reset_regs 0 Hv
           (wf_reset small_params Hv)); reflexivity.
Defined.

(** ** The clock divider *)

Lemma clk_counter_cycle (p : SPIParams) (s : regs) (i : inputs) :
  clk_counter (cycle p s i) = clk_counter (divider p s i s).
Proof.
  unfold cycle, datapath, fsm_sync, init_sync, when.
  repeat match goal with
         | |- context [if ?c then _ else _] =>
             lazymatch c with
             | clk_cnt_done _ => fail
             | cnt_load _ => fail
             | _ => destruct c
             end
         end; reflexivity.
Qed.

Lemma divider_step (p : SPIParams) (s : regs) (i : inputs) :
  valid_params p -> wf_regs p s ->
  clk_counter (cycle p s i)
  = if clk_cnt_done s
    then (if cnt_load (fsm_act s i) then clk_width p - 1 else 0)
    else clk_counter s - 1.
Proof.
  intros (H1 & H2 & H3) (Wc & _). rewrite clk_counter_cycle.
  unfold divider, when, clk_cnt_done, clk_counter_width.
  destruct (clk_counter s =? 0) eqn:E.
  - apply Z.eqb_eq in E. destruct (cnt_load _); cbn [set_clk_counter clk_counter].
    + apply width_fits. lia.
    + exact E.
  - apply Z.eqb_neq in E. cbn [set_clk_counter clk_counter].
    apply width_fits. lia.
Qed.

(** C5 (as the code has it): on a tick where load is requested the counter
    reloads to [clk_width - 1]; on every non-tick cycle it decrements; on a
    tick where load is not requested it stays at 0, so that the tick stays
    asserted until load is requested again.  While the FSM requests load on
    each tick, ticks are exactly [clk_width] cycles apart. *)
Theorem divider_cadence
  (p : SPIParams) (inp : nat -> inputs) (s0 : regs) (t : nat) :
  valid_params p -> wf_regs p s0 ->
  let s := run p inp s0 t in
  (clk_cnt_done s = true -> cnt_load (fsm_act s (inp t)) = true ->
   clk_counter (run p inp s0 (S t)) = clk_width p - 1 /\
   (forall u, (0 < u < tick_cycles p)%nat ->
      clk_cnt_done (run p inp s0 (t + u)) = false) /\
   clk_cnt_done (run p inp s0 (t + tick_cycles p)) = true) /\
  (clk_cnt_done s = false ->
   clk_counter (run p inp s0 (S t)) = clk_counter s - 1) /\
  (clk_cnt_done s = true -> cnt_load (fsm_act s (inp t)) = false ->
   clk_counter (run p inp s0 (S t)) = 0 /\
   clk_cnt_done (run p inp s0 (S t)) = true).
Proof.
  intros Hp Hwf s. pose proof (wf_run p inp s0 t Hp Hwf) as Wt. fold s in Wt.
  pose proof (divider_step p s (inp t) Hp Wt) as D.
  change (cycle p s (inp t)) with (run p inp s0 (S t)) in D.
  pose proof (CW_pos p Hp) as HCW. pose proof (CW_Z p Hp) as HCZ.
  split; [|split].
  - intros Ht Hl. rewrite Ht, Hl in D. split; [exact D|]. split.
    + intros u [Hu0 Hu].
      destruct (dwell p inp s0 (tick_cycles p - 1) (S t)) with (u := (u - 1)%nat)
        as [_ E]; try lia.
      replace (S t + (u - 1))%nat with (t + u)%nat in E by lia.
      unfold clk_cnt_done. rewrite E. apply Z.eqb_neq. lia.
    + destruct (dwell p inp s0 (tick_cycles p - 1) (S t))
        with (u := (tick_cycles p - 1)%nat) as [_ E]; try lia.
      replace (S t + (tick_cycles p - 1))%nat with (t + tick_cycles p)%nat in E
        by lia.
      unfold clk_cnt_done. rewrite E. apply Z.eqb_eq. lia.
  - intros Ht. rewrite D, Ht. reflexivity.
  - intros Ht Hl. rewrite Ht, Hl in D. unfold clk_cnt_done. rewrite D. auto.
Qed.

Lemma divider_cadence_witness :
  valid_params small_params /\ wf_regs small_params reset_regs /\
  clk_counter (run small_params start_once reset_regs 1) = 1 /\
  (forall u, (0 < u < 2)%nat ->
     clk_cnt_done (run small_params start_once reset_regs (0 + u)) = false) /\
  clk_cnt_done (run small_params start_once reset_regs 2) = true /\
  clk_counter (run small_params start_once reset_regs 2)
  = clk_counter (run small_params start_once reset_regs 1) - 1 /\
  clk_counter (run small_params start_once reset_regs 14) = 0 /\
  clk_cnt_done (run small_params start_once reset_regs 14) = true.
Proof.
  assert (Hv : valid_params small_params) by (cbv; intuition discriminate).
  pose proof (wf_reset small_params Hv) as Hw.
  split; [exact Hv|]. split; [exact Hw|].
  destruct (divider_cadence small_params start_once reset_regs 0 Hv Hw)
    as (A & _ & _).
  destruct (divider_cadence small_params start_once reset_regs 1 Hv Hw)
    as (_ & B & _).
  destruct (divider_cadence small_params start_once reset_regs 13 Hv Hw)
    as (_ & _ & C).
  destruct (A eq_refl eq_refl) as (A1 & A2 & A3).
  destruct (C eq_refl eq_refl) as (C1 & C2).
  exact (conj A1 (conj A2 (conj A3 (conj (B eq_refl) (conj C1 C2))))).
Defined.

(** C5, counterexample: with the counter at 0 and no load requested the
    counter does not reload; it is still 0 after the cycle. *)
Lemma divider_no_automatic_reload :
  ~ (forall s i,
       wf_regs scenario_params s ->
       clk_cnt_done s = true -> cnt_load (fsm_act s i) = false ->
       clk_counter (cycle scenario_params s i) = clk_width scenario_params - 1).
Proof.
  intros H.
  assert (Hv : valid_params scenario_params) by (cbv; intuition discriminate).
  specialize (H reset_regs no_request (wf_reset _ Hv) eq_refl eq_refl).
  vm_compute in H. discriminate H.
Qed.

(** ** The ready flag *)

(** C2 (as the code has it): [ready] is high exactly when the FSM is in
    IDLE, whether or not a request is being made; it is never high in a
    state of a transfer. *)
Theorem ready_iff_idle (p : SPIParams) (s : regs) (i : inputs) :
  (pin_ready (outputs p s i) = true <-> state s = IDLE) /\
  (state s <> IDLE -> ready (fsm_act s i) = false).
Proof.
  rewrite outputs_by_state. cbn [pin_ready]. split; [split|].
  - destruct (state s); cbn; congruence.
  - intros ->. reflexivity.
  - intros H. change (ready (fsm_act s i)) with (pin_ready (outputs p s i)).
    rewrite outputs_by_state. cbn [pin_ready].
    destruct (state s); cbn; congruence.
Qed.

(** C2, counterexample: in IDLE with [start] asserted, [ready] is high
    although a request is pending. *)
Lemma ready_high_while_request_pending :
  ~ (forall s i,
       pin_ready (outputs scenario_params s i) = true <->
       (state s = IDLE /\ start i = false /\ init_latch s i = false)).
Proof.
  intros H.
  destruct (H reset_regs (with_start true no_request)) as [H1 _].
  destruct (H1 eq_refl) as (_ & Hs & _). discriminate Hs.
Qed.

(** ** The load pulse *)

Lemma data_load_only_in_idle (s : regs) (i : inputs) :
  data_load (fsm_act s i) = true ->
  state s = IDLE /\ start i || init i = true.
Proof.
  unfold fsm_act, comb_default. destruct (state s); cbn; try discriminate.
  - destruct (start i || init i); cbn; auto; discriminate.
  - destruct (busy i && (word_counter s =? 0)); cbn; [discriminate|].
    destruct (busy i); cbn; discriminate.
Qed.

(** C6: on the tick of the load pulse (raised in IDLE only, and low again in
    the next cycle), the shift register takes, when the init latch is set,
    the lowest [data_width] bits of the input latch placed in the most
    significant word slot with every bit below that slot zero; otherwise it
    takes the input latch unchanged. *)
Theorem load_pulse_loads_shift_register
  (p : SPIParams) (s : regs) (i i' : inputs) :
  valid_params p ->
  clk_cnt_done s = true -> data_load (fsm_act s i) = true ->
  0 <= dataSPI i < 2 ^ sr_width p ->
  let s' := cycle p s i in
  let top := data_width p * (channels p - 1) in
  state s = IDLE /\
  (init_latch s i = true ->
   sr_data s' = (dataSPI i mod 2 ^ data_width p) * 2 ^ top /\
   forall k, 0 <= k ->
     Z.testbit (sr_data s') k
     = if (top <=? k) && (k <? sr_width p)
       then Z.testbit (dataSPI i) (k - top) else false) /\
  (init_latch s i = false -> sr_data s' = dataSPI i) /\
  data_load (fsm_act s' i') = false.
Proof.
  intros Hp Hc Hl Hd s' top. pose proof Hp as (H1 & H2 & H3).
  apply Z.eqb_eq in Hc.
  destruct (data_load_only_in_idle s i Hl) as [Hst Hreq].
  pose proof (cycle_IDLE_go p s i Hst Hc Hreq) as E. fold s' in E.
  assert (Htop : 0 <= top) by (unfold top; nia).
  assert (HW : sr_width p = data_width p + top) by (unfold sr_width, top; lia).
  split; [exact Hst|]. split; [|split].
  - intros Hil. rewrite E, Hil. cbn [sr_data].
    unfold Migen.slice_low, Migen.trunc. fold top.
    rewrite Z.shiftl_mul_pow2 by exact Htop.
    assert (Hm : 0 <= dataSPI i mod 2 ^ data_width p < 2 ^ data_width p)
      by (apply Z.mod_pos_bound, Z.pow_pos_nonneg; lia).
    assert (Hs : (dataSPI i mod 2 ^ data_width p) * 2 ^ top mod 2 ^ sr_width p
                 = (dataSPI i mod 2 ^ data_width p) * 2 ^ top).
    { apply Z.mod_small. rewrite HW, Z.pow_add_r by lia.
      assert (0 < 2 ^ top) by (apply Z.pow_pos_nonneg; lia). nia. }
    rewrite Hs. split; [reflexivity|].
    intros k Hk. rewrite Z.mul_pow2_bits by exact Htop.
    destruct (top <=? k) eqn:E1; cbn [andb].
    + apply Z.leb_le in E1. destruct (k <? sr_width p) eqn:E2.
      * apply Z.ltb_lt in E2. apply Z.mod_pow2_bits_low. lia.
      * apply Z.ltb_ge in E2. apply Z.mod_pow2_bits_high. lia.
    + apply Z.leb_gt in E1. apply Z.testbit_neg_r. lia.
  - intros Hil. rewrite E, Hil. cbn [sr_data]. apply trunc_small. exact Hd.
  - rewrite E. reflexivity.
Qed.

Lemma load_pulse_loads_shift_register_witness :
  valid_params small_params /\
  0 <= dataSPI (init_once 0) < 2 ^ sr_width small_params /\
  state reset_regs = IDLE /\
  (init_latch reset_regs (init_once 0) = true ->
   sr_data (cycle small_params reset_regs (init_once 0))
   = (dataSPI (init_once 0) mod 2 ^ 3) * 2 ^ 3 /\
   forall k, 0 <= k ->
     Z.testbit (sr_data (cycle small_params reset_regs (init_once 0))) k
     = if (3 <=? k) && (k <? 6)
       then Z.testbit (dataSPI (init_once 0)) (k - 3) else false) /\
  (init_latch reset_regs (init_once 0) = false ->
   sr_data (cycle small_params reset_regs (init_once 0))
   = dataSPI (init_once 0)) /\
  data_load (fsm_act (cycle small_params reset_regs (init_once 0)) no_request)
  = false.
Proof.
  assert (Hv : valid_params small_params) by (cbv; intuition discriminate).
  assert (Hd : 0 <= dataSPI (init_once 0) < 2 ^ sr_width small_params)
    by (cbv; intuition discriminate).
  split; [exact Hv|]. split; [exact Hd|].
  exact (load_pulse_loads_shift_register small_params reset_regs (init_once 0)
           no_request Hv eq_refl eq_refl Hd).
Defined.

(** ** [start] outside IDLE *)

Lemma fsm_act_ignores_start (s : regs) (i : inputs) (b : bool) :
  state s <> IDLE -> fsm_act s (with_start b i) = fsm_act s i.
Proof.
  intros H. unfold fsm_act. destruct (state s); try reflexivity.
  congruence.
Qed.

Lemma cycle_ignores_start (p : SPIParams) (s : regs) (i : inputs) (b : bool) :
  state s <> IDLE ->
  cycle p s (with_start b i) = cycle p s i /\
  outputs p s (with_start b i) = outputs p s i.
Proof.
  intros H. split.
  - unfold cycle, datapath, fsm_sync, init_sync, divider, before_leaving,
      init_latch, comb_init.
    rewrite !fsm_act_ignores_start by exact H. reflexivity.
  - unfold outputs. rewrite !fsm_act_ignores_start by exact H. reflexivity.
Qed.

Lemma inputs_but_start (i i' : inputs) :
  init i' = init i -> busy i' = busy i -> dataSPI i' = dataSPI i ->
  i' = with_start (start i') i.
Proof.
  destruct i, i'. cbn. intros -> -> ->. reflexivity.
Qed.

(** C7: in every state other than IDLE and for every input combination, the
    value of [start] has no effect on the successor state (FSM state, shift
    register, counters and flags alike) nor on the pins: two runs that
    differ only in [start] there have identical successors.  Hence two
    input streams that differ only in [start] during cycles where the FSM is
    not in IDLE ([ready] low) give the same run. *)
Theorem start_ignored_outside_idle
  (p : SPIParams) (s : regs) (i : inputs) (b1 b2 : bool)
  (inp inp' : nat -> inputs) (s0 : regs) :
  (state s <> IDLE ->
   cycle p s (with_start b1 i) = cycle p s (with_start b2 i) /\
   outputs p s (with_start b1 i) = outputs p s (with_start b2 i)) /\
  ((forall k, init (inp' k) = init (inp k) /\ busy (inp' k) = busy (inp k) /\
              dataSPI (inp' k) = dataSPI (inp k) /\
              (state (run p inp s0 k) = IDLE -> start (inp' k) = start (inp k))) ->
   forall n, run p inp' s0 n = run p inp s0 n /\
             pins_at p inp' s0 n = pins_at p inp s0 n).
Proof.
  split.
  - intros H.
    destruct (cycle_ignores_start p s i b1 H) as [-> ->].
    destruct (cycle_ignores_start p s i b2 H) as [-> ->]. auto.
  - intros H.
    assert (R : forall n, run p inp' s0 n = run p inp s0 n).
    { induction n as [|n IH]; [reflexivity|].
      cbn [run]. rewrite IH.
      destruct (H n) as (Hi & Hb & Hd & Hs).
      rewrite (inputs_but_start (inp n) (inp' n) Hi Hb Hd).
      destruct (state (run p inp s0 n)) eqn:Hst;
        try (apply cycle_ignores_start; rewrite Hst; discriminate).
      rewrite (Hs eq_refl). destruct (inp n); reflexivity. }
    intros n. split; [apply R|].
    unfold pins_at. rewrite R, !outputs_by_state. reflexivity.
Qed.

Lemma start_ignored_outside_idle_witness :
  state mid_word <> IDLE /\
  (cycle small_params mid_word (with_start true no_request)
   = cycle small_params mid_word (with_start false no_request) /\
   outputs small_params mid_word (with_start true no_request)
   = outputs small_params mid_word (with_start false no_request)) /\
  (forall n, run small_params start_repeated reset_regs n
             = run small_params start_once reset_regs n /\
             pins_at small_params start_repeated reset_regs n
             = pins_at small_params start_once reset_regs n).
Proof.
  assert (H : state mid_word <> IDLE) by discriminate.
  split; [exact H|].
  destruct (start_ignored_outside_idle small_params mid_word no_request
              true false start_once start_repeated reset_regs) as [A B].
  split; [exact (A H)|]. apply B.
  intros k. unfold start_repeated.
  destruct (Nat.eqb k 5) eqn:E5; [apply Nat.eqb_eq in E5; subst k|];
    [|destruct (Nat.eqb k 14) eqn:E14; [apply Nat.eqb_eq in E14; subst k|]];
    cbn [orb]; repeat split; try reflexivity;
    intros Hidle; vm_compute in Hidle; discriminate Hidle.
Defined.

(** ** Cycles without a tick *)

(** C9: on every device-clock cycle where the divider tick is low, the FSM
    state, the shift register, the bit counter, the word counter and the
    initialized flag are all unchanged. *)
Theorem no_tick_no_update (p : SPIParams) (s : regs) (i : inputs) :
  clk_cnt_done s = false ->
  state (cycle p s i) = state s /\
  sr_data (cycle p s i) = sr_data s /\
  bits (cycle p s i) = bits s /\
  word_counter (cycle p s i) = word_counter s /\
  initialized (cycle p s i) = initialized s.
Proof.
  intros H. apply Z.eqb_neq in H.
  rewrite (cycle_no_tick p s i H). repeat split.
Qed.

Lemma no_tick_no_update_witness :
  clk_cnt_done mid_word = false /\
  state (cycle small_params mid_word (init_once 0)) = state mid_word /\
  sr_data (cycle small_params mid_word (init_once 0)) = sr_data mid_word /\
  bits (cycle small_params mid_word (init_once 0)) = bits mid_word /\
  word_counter (cycle small_params mid_word (init_once 0))
  = word_counter mid_word /\
  initialized (cycle small_params mid_word (init_once 0))
  = initialized mid_word.
Proof.
  split; [reflexivity|].
  exact (no_tick_no_update small_params mid_word (init_once 0) eq_refl).
Defined.

(** ** A second init request *)

Lemma msbs_zero (p : SPIParams) (n : nat) : msbs p 0 n = repeat false n.
Proof.
  unfold msbs.
  assert (G : forall l : list nat,
            map (fun i => Z.testbit 0 (sr_width p - 1 - Z.of_nat i)) l
            = repeat false (length l)).
  { induction l as [|a l IH]; [reflexivity|].
    cbn [map length repeat]. now rewrite Z.testbit_0_l, IH. }
  rewrite G, length_seq. reflexivity.
Qed.

Lemma drained_zero (p : SPIParams) (m : nat) :
  valid_params p ->
  drained p 0 m = repeat (repeat false (Z.to_nat (data_width p))) m.
Proof.
  intros Hp. pose proof (sr_width_pos p Hp) as HW.
  induction m as [|m IH]; [reflexivity|].
  cbn [drained repeat]. rewrite msbs_zero, Z.mul_0_l, Z.mod_0_l, IH;
    [reflexivity|]. apply Z.pow_nonzero; lia.
Qed.

Lemma init_load_range (p : SPIParams) (d : Z) :
  valid_params p ->
  init_load p d
  = (d mod 2 ^ data_width p) * 2 ^ (data_width p * (channels p - 1)) /\
  0 <= init_load p d < 2 ^ sr_width p.
Proof.
  intros (H1 & H2 & H3). unfold init_load, Migen.slice_low.
  set (top := data_width p * (channels p - 1)).
  assert (Htop : 0 <= top) by (unfold top; nia).
  rewrite Z.shiftl_mul_pow2 by exact Htop. split; [reflexivity|].
  assert (Hm : 0 <= d mod 2 ^ data_width p < 2 ^ data_width p)
    by (apply Z.mod_pos_bound, Z.pow_pos_nonneg; lia).
  assert (HW : sr_width p = data_width p + top) by (unfold sr_width, top; lia).
  rewrite HW, Z.pow_add_r by lia.
  assert (0 < 2 ^ top) by (apply Z.pow_pos_nonneg; lia). nia.
Qed.

(** An init-style load drained over [S m] words: the lowest segment of the
    latch, then words of zeros. *)
Lemma drained_init_full (p : SPIParams) (d : Z) (m : nat) :
  valid_params p ->
  drained p (Migen.trunc (sr_width p) (init_load p d)) (S m)
  = low_word p d :: repeat (repeat false (Z.to_nat (data_width p))) m.
Proof.
  intros Hp. pose proof Hp as (H1 & H2 & H3).
  pose proof (sr_width_pos p Hp) as HW.
  pose proof (drained_init p Hp d) as E. cbn [drained] in E.
  injection E as E. cbn [drained]. rewrite E. f_equal.
  destruct (init_load_range p d Hp) as [R1 R2].
  rewrite trunc_small by exact R2. rewrite R1.
  replace ((d mod 2 ^ data_width p) * 2 ^ (data_width p * (channels p - 1))
           * 2 ^ data_width p)
    with ((d mod 2 ^ data_width p) * 2 ^ sr_width p).
  - rewrite Z.mod_mul by (apply Z.pow_nonzero; lia).
    apply drained_zero. exact Hp.
  - rewrite <- Z.mul_assoc, <- Z.pow_add_r by nia.
    do 2 f_equal. unfold sr_width. lia.
Qed.

(** C10: once [initialized] is set, a tick in IDLE with [init] asserted
    starts a transfer whose shift register is loaded in init style (the
    lowest segment of the latch in the top word slot, zero below) while the
    word counter is set to [channels], not 1: the guard of the word counter
    is [init_latch & ~initialized], false here, and the guard of the load is
    [init_latch] alone, true here.  The transfer that follows therefore
    sends [channels] words: the lowest segment of the latch, then zeros. *)
Theorem second_init_loads_init_style_with_full_count
  (p : SPIParams) (inp : nat -> inputs) (s0 : regs) :
  valid_params p ->
  state s0 = IDLE -> clk_cnt_done s0 = true ->
  initialized s0 = true -> init (inp 0%nat) = true ->
  let s' := run p inp s0 1 in
  init_latch s0 (inp 0%nat) = true /\
  init_latch s0 (inp 0%nat) && negb (initialized s0) = false /\
  state s' = SETUP /\
  sr_data s'
  = (dataSPI (inp 0%nat) mod 2 ^ data_width p)
    * 2 ^ (data_width p * (channels p - 1)) /\
  word_counter s' = channels p /\
  bits s' = data_width p - 1 /\
  (busy_responsive inp ->
   exists n, (0 < n)%nat /\
     state (run p inp s0 n) = IDLE /\
     (forall k, (0 < k < n)%nat -> state (run p inp s0 k) <> IDLE) /\
     rx_done (received p inp s0 n)
     = low_word p (dataSPI (inp 0%nat))
       :: repeat (repeat false (Z.to_nat (data_width p)))
                 (Z.to_nat (channels p) - 1)).
Proof.
  intros Hp Hst Hc Hini Hinit s'. pose proof Hp as (H1 & H2 & H3).
  apply Z.eqb_eq in Hc.
  assert (Hil : init_latch s0 (inp 0%nat) = true)
    by (unfold init_latch, comb_init; now rewrite Hinit).
  assert (Hreq : start (inp 0%nat) || init (inp 0%nat) = true)
    by (rewrite Hinit; apply orb_true_r).
  pose proof (cycle_IDLE_go p s0 (inp 0%nat) Hst Hc Hreq) as E.
  change (cycle p s0 (inp 0%nat)) with s' in E.
  rewrite Hil, Hini in E. cbn [negb andb] in E.
  destruct (init_load_range p (dataSPI (inp 0%nat)) Hp) as [R1 R2].
  fold (init_load p (dataSPI (inp 0%nat))) in E.
  rewrite (trunc_small _ _ R2), R1 in E.
  unfold word_counter_width, bits_width in E.
  rewrite !width_fits in E by nia.
  rewrite E, Hil, Hini. cbn [state sr_data word_counter bits negb andb].
  do 6 (split; [reflexivity|]).
  intros Hr.
  destruct (transfer_from_idle p Hp inp s0 0 (Z.to_nat (channels p) - 1) Hr)
    as (n & N0 & N1 & N2 & N3 & N4 & N5 & N6);
    try assumption; try reflexivity.
  { cbn [run]. rewrite Hil, Hini. cbn [negb andb]. apply channels_as_nat, Hp. }
  change (0 + S (S n))%nat with (S (S n)) in *.
  change (run p inp s0 0) with s0 in *.
  change (rx_done (received p inp s0 0)) with (@nil (list bool)) in N4.
  rewrite Hil, app_nil_l, drained_init_full in N4 by exact Hp.
  exists (S (S n)). repeat split; try assumption; try lia.
  intros k [Hk0 Hk]. apply (N6 k); lia.
Qed.

Lemma second_init_loads_init_style_with_full_count_witness :
  valid_params small_params /\
  init_latch idle_initialized (init_once 0) = true /\
  init_latch idle_initialized (init_once 0)
  && negb (initialized idle_initialized) = false /\
  state (run small_params init_once idle_initialized 1) = SETUP /\
  sr_data (run small_params init_once idle_initialized 1)
  = (dataSPI (init_once 0) mod 2 ^ 3) * 2 ^ (3 * (2 - 1)) /\
  word_counter (run small_params init_once idle_initialized 1) = 2 /\
  bits (run small_params init_once idle_initialized 1) = 3 - 1 /\
  (busy_responsive init_once ->
   exists n, (0 < n)%nat /\
     state (run small_params init_once idle_initialized n) = IDLE /\
     (forall k, (0 < k < n)%nat ->
        state (run small_params init_once idle_initialized k) <> IDLE) /\
     rx_done (received small_params init_once idle_initialized n)
     = low_word small_params (dataSPI (init_once 0))
       :: repeat (repeat false 3%nat) 1).
Proof.
  assert (Hv : valid_params small_params) by (cbv; intuition discriminate).
  split; [exact Hv|].
  exact (second_init_loads_init_style_with_full_count small_params
           init_once idle_initialized Hv eq_refl eq_refl eq_refl eq_refl).
Defined.

(** ** The scenario of the specification *)

(** C8: with 4 channels of 24 bits and 4 cycles per tick, [start] pulsed for
    one tick while [ready] is high and [busy] driven low for 2 ticks then
    high after each word, the FSM is out of IDLE from the cycle after the
    accepting tick until it returns there, with [ready] high, after exactly
    [4 * (24 * 2 + 3) + 1] divider ticks counted from the accepting tick
    included; the 204th tick still finds it in BUSY_HIGH.  The four words of
    the latch have then been received. *)
Theorem scenario_returns_to_idle_after_205_ticks :
  let tr := tb_run scenario_params 781 0 (tb_reset scenario_params) in
  let final := last tr (tb_reset scenario_params) in
  pin_ready (outputs scenario_params reset_regs
               (tb_inputs scenario_params 0 (tb_reset scenario_params))) = true /\
  map is_idle tr = true :: repeat false 780 ++ [true] /\
  sim_ticks final = Z.to_nat (4 * (24 * 2 + 3) + 1) /\
  map sim_ticks (skipn 780 tr) = [204; 205]%nat /\
  tick_states (removelast tr)
  = IDLE :: concat (repeat scenario_word_ticks 4) /\
  pin_ready (outputs scenario_params (sim_regs final) no_request) = true /\
  rx_done (sim_rx final)
  = map (word_bits 24) [0xA5A5A5; 0x5A5A5A; 0x123456; 0xFEDCBA].
Proof.
  vm_compute. repeat split; reflexivity.
Qed.

(** * Further properties of the core *)

(** ** Registers of a core run from reset *)

(** Whatever the inputs, the registers of a core started from reset stay in
    range: the divider below [clk_width], the shift register within its
    width, the bit counter below [data_width], the word counter at most
    [channels]; and outside a frame (IDLE, BUSY_LOW, BUSY_HIGH) the divider
    rests at 0, so that every cycle there is a tick. *)
Theorem registers_in_range_from_reset
  (p : SPIParams) (inp : nat -> inputs) (t : nat) :
  valid_params p ->
  let s := run p inp reset_regs t in
  0 <= clk_counter s < clk_width p /\
  0 <= sr_data s < 2 ^ sr_width p /\
  0 <= bits s < data_width p /\
  0 <= word_counter s <= channels p /\
  (state s = HOLD -> 1 <= bits s) /\
  (in_frame (state s) = true -> 1 <= word_counter s) /\
  (in_frame (state s) = false -> clk_cnt_done s = true).
Proof.
  intros Hp s.
  destruct (wf_run p inp reset_regs t Hp (wf_reset p Hp))
    as (A & B & C & D & E & F & G).
  fold s in A, B, C, D, E, F, G.
  repeat split; try tauto; try lia.
  intros H. unfold clk_cnt_done. rewrite (G H). reflexivity.
Qed.

Lemma registers_in_range_from_reset_witness :
  valid_params small_params /\
  0 <= clk_counter (run small_params start_once reset_regs 7) < 2 /\
  0 <= sr_data (run small_params start_once reset_regs 7) < 2 ^ 6 /\
  0 <= bits (run small_params start_once reset_regs 7) < 3.
Proof.
  assert (Hv : valid_params small_params) by (cbv; intuition discriminate).
  split; [exact Hv|].
  destruct (registers_in_range_from_reset small_params start_once 7 Hv)
    as (A & B & C & _).
  exact (conj A (conj B C)).
Defined.

(** ** IDLE *)

(** In a core run from reset, a request made while the FSM is in IDLE
    ([ready] high) is accepted in that very cycle, however short the pulse
    and whatever the divisor: the next cycle finds the FSM in SETUP with
    [ready] low, chip-select asserted, the serial clock high, the bit
    counter at [data_width - 1] and the divider reloaded. *)
Theorem request_in_idle_accepted_at_once
  (p : SPIParams) (inp : nat -> inputs) (t : nat) :
  valid_params p ->
  state (run p inp reset_regs t) = IDLE ->
  start (inp t) || init (inp t) = true ->
  state (run p inp reset_regs (S t)) = SETUP /\
  pins_at p inp reset_regs (S t)
  = mkPins true false (sdi p (run p inp reset_regs (S t))) false /\
  bits (run p inp reset_regs (S t)) = data_width p - 1 /\
  clk_counter (run p inp reset_regs (S t)) = clk_width p - 1 /\
  (word_counter (run p inp reset_regs (S t)) = 1 \/
   word_counter (run p inp reset_regs (S t)) = channels p).
Proof.
  intros Hp Hst Hreq. pose proof Hp as (H1 & H2 & H3).
  destruct (wf_run p inp reset_regs t Hp (wf_reset p Hp))
    as (_ & _ & _ & _ & _ & _ & G).
  assert (Hc : clk_counter (run p inp reset_regs t) = 0)
    by (apply G; rewrite Hst; reflexivity).
  pose proof (cycle_IDLE_go p _ (inp t) Hst Hc Hreq) as E.
  change (cycle p (run p inp reset_regs t) (inp t))
    with (run p inp reset_regs (S t)) in E.
  assert (Es : state (run p inp reset_regs (S t)) = SETUP)
    by (rewrite E; reflexivity).
  assert (Eb : bits (run p inp reset_regs (S t)) = data_width p - 1).
  { rewrite E. cbn [bits]. unfold bits_width. apply width_fits. nia. }
  assert (Ec : clk_counter (run p inp reset_regs (S t)) = clk_width p - 1).
  { rewrite E. cbn [clk_counter]. unfold clk_counter_width.
    apply width_fits. lia. }
  assert (Ew : word_counter (run p inp reset_regs (S t)) = 1 \/
               word_counter (run p inp reset_regs (S t)) = channels p).
  { rewrite E. cbn [word_counter]. unfold word_counter_width.
    destruct (init_latch _ _ && negb _); rewrite width_fits by lia; auto. }
  rewrite pins_at_eq, Es. cbn [fsm_state_eqb in_frame negb]. auto.
Qed.

Lemma request_in_idle_accepted_at_once_witness :
  valid_params scenario_params /\
  state (run scenario_params start_once reset_regs 1) = SETUP /\
  pins_at scenario_params start_once reset_regs 1
  = mkPins true false
      (sdi scenario_params (run scenario_params start_once reset_regs 1))
      false /\
  bits (run scenario_params start_once reset_regs 1) = 24 - 1 /\
  clk_counter (run scenario_params start_once reset_regs 1) = 4 - 1 /\
  (word_counter (run scenario_params start_once reset_regs 1) = 1 \/
   word_counter (run scenario_params start_once reset_regs 1) = 4).
Proof.
  assert (Hv : valid_params scenario_params) by (cbv; intuition discriminate).
  split; [exact Hv|].
  exact (request_in_idle_accepted_at_once scenario_params start_once 0 Hv
           eq_refl eq_refl).
Defined.

(** In a core run from reset, while no request is made the FSM stays in
    IDLE: [ready] and chip-select high, the serial clock low, the shift
    register (hence the data line) and [initialized] untouched. *)
Theorem idle_without_request
  (p : SPIParams) (inp : nat -> inputs) (t n : nat) :
  valid_params p ->
  state (run p inp reset_regs t) = IDLE ->
  (forall u, (u < n)%nat -> start (inp (t + u)%nat) || init (inp (t + u)%nat) = false) ->
  forall u, (u <= n)%nat ->
    state (run p inp reset_regs (t + u)) = IDLE /\
    sr_data (run p inp reset_regs (t + u)) = sr_data (run p inp reset_regs t) /\
    initialized (run p inp reset_regs (t + u))
    = initialized (run p inp reset_regs t) /\
    pins_at p inp reset_regs (t + u)
    = mkPins false true (sdi p (run p inp reset_regs t)) true.
Proof.
  intros Hp Hst Hq u. induction u as [|u IH]; intros Hu.
  - rewrite Nat.add_0_r, pins_at_eq, Hst. auto.
  - destruct IH as (I1 & I2 & I3 & _); [lia|].
    destruct (wf_run p inp reset_regs (t + u) Hp (wf_reset p Hp))
      as (_ & _ & _ & _ & _ & _ & G).
    assert (Hc : clk_counter (run p inp reset_regs (t + u)) = 0)
      by (apply G; rewrite I1; reflexivity).
    pose proof (cycle_IDLE_stay p _ (inp (t + u)%nat) I1 Hc (Hq u ltac:(lia))) as E.
    change (cycle p (run p inp reset_regs (t + u)) (inp (t + u)%nat))
      with (run p inp reset_regs (S (t + u))) in E.
    replace (t + S u)%nat with (S (t + u)) by lia.
    assert (E1 : state (run p inp reset_regs (S (t + u))) = IDLE)
      by (rewrite E; reflexivity).
    assert (E2 : sr_data (run p inp reset_regs (S (t + u)))
                 = sr_data (run p inp reset_regs t))
      by (rewrite E; cbn [sr_data]; exact I2).
    assert (E3 : initialized (run p inp reset_regs (S (t + u)))
                 = initialized (run p inp reset_regs t))
      by (rewrite E; cbn [initialized]; exact I3).
    rewrite pins_at_eq, E1. unfold sdi. rewrite E2. auto.
Qed.

Lemma idle_without_request_witness :
  valid_params small_params /\
  forall u, (u <= 9)%nat ->
    state (run small_params never_asked reset_regs (0 + u)) = IDLE /\
    sr_data (run small_params never_asked reset_regs (0 + u))
    = sr_data (run small_params never_asked reset_regs 0) /\
    initialized (run small_params never_asked reset_regs (0 + u))
    = initialized (run small_params never_asked reset_regs 0) /\
    pins_at small_params never_asked reset_regs (0 + u)
    = mkPins false true
        (sdi small_params (run small_params never_asked reset_regs 0)) true.
Proof.
  assert (Hv : valid_params small_params) by (cbv; intuition discriminate).
  split; [exact Hv|].
  apply (idle_without_request small_params never_asked 0 9 Hv eq_refl).
  intros u _. reflexivity.
Defined.

(** ** The busy handshake has no timeout *)

(** In a core run from reset: while [busy] stays high the FSM stays in
    BUSY_LOW, and while [busy] stays low it stays in BUSY_HIGH, for as long
    as that lasts; [ready] is low and the registers of the datapath keep
    their values. *)
Theorem handshake_waits_for_busy
  (p : SPIParams) (inp : nat -> inputs) (t n : nat) :
  valid_params p ->
  (state (run p inp reset_regs t) = BUSY_LOW /\
   forall u, (u < n)%nat -> busy (inp (t + u)%nat) = true) \/
  (state (run p inp reset_regs t) = BUSY_HIGH /\
   forall u, (u < n)%nat -> busy (inp (t + u)%nat) = false) ->
  forall u, (u <= n)%nat ->
    state (run p inp reset_regs (t + u)) = state (run p inp reset_regs t) /\
    sr_data (run p inp reset_regs (t + u)) = sr_data (run p inp reset_regs t) /\
    word_counter (run p inp reset_regs (t + u))
    = word_counter (run p inp reset_regs t) /\
    initialized (run p inp reset_regs (t + u))
    = initialized (run p inp reset_regs t) /\
    pin_ready (pins_at p inp reset_regs (t + u)) = false.
Proof.
  intros Hp Hw u. induction u as [|u IH]; intros Hu.
  - rewrite Nat.add_0_r, pins_at_eq. cbn [pin_ready].
    destruct Hw as [[-> _]|[-> _]]; auto.
  - destruct IH as (I1 & I2 & I3 & I4 & _); [lia|].
    destruct (wf_run p inp reset_regs (t + u) Hp (wf_reset p Hp))
      as (_ & _ & _ & _ & _ & _ & G).
    replace (t + S u)%nat with (S (t + u)) by lia.
    assert (E : run p inp reset_regs (S (t + u))
                = cycle p (run p inp reset_regs (t + u)) (inp (t + u)%nat))
      by reflexivity.
    destruct Hw as [[Hst Hb]|[Hst Hb]]; rewrite Hst in *.
    + assert (Hc : clk_counter (run p inp reset_regs (t + u)) = 0)
        by (apply G; rewrite I1; reflexivity).
      rewrite (cycle_BUSY_LOW p _ _ I1 Hc), (Hb u) in E by lia.
      rewrite pins_at_eq, E. cbn. auto.
    + assert (Hc : clk_counter (run p inp reset_regs (t + u)) = 0)
        by (apply G; rewrite I1; reflexivity).
      rewrite (cycle_BUSY_HIGH_wait p _ _ I1 Hc (Hb u ltac:(lia))) in E.
      rewrite pins_at_eq, E. cbn. auto.
Qed.

Lemma handshake_waits_for_busy_witness :
  valid_params small_params /\
  state (run small_params busy_stuck reset_regs 13) = BUSY_LOW /\
  forall u, (u <= 50)%nat ->
    state (run small_params busy_stuck reset_regs (13 + u))
    = state (run small_params busy_stuck reset_regs 13) /\
    sr_data (run small_params busy_stuck reset_regs (13 + u))
    = sr_data (run small_params busy_stuck reset_regs 13) /\
    word_counter (run small_params busy_stuck reset_regs (13 + u))
    = word_counter (run small_params busy_stuck reset_regs 13) /\
    initialized (run small_params busy_stuck reset_regs (13 + u))
    = initialized (run small_params busy_stuck reset_regs 13) /\
    pin_ready (pins_at small_params busy_stuck reset_regs (13 + u)) = false.
Proof.
  assert (Hv : valid_params small_params) by (cbv; intuition discriminate).
  split; [exact Hv|]. split; [reflexivity|].
  apply (handshake_waits_for_busy small_params busy_stuck 13 50 Hv).
  left. split; [reflexivity|]. intros u _. reflexivity.
Defined.

(** ** When the shift register and the data line change *)

(** The shift register is written on three occasions only, all of them
    ticks: leaving HOLD, in DELAY, and in IDLE when a request is accepted.
    In particular the data line is the same before and after the cycle
    whenever the serial clock is high (SETUP), so that it is steady across
    every falling clock edge. *)
Theorem shift_register_write_occasions
  (p : SPIParams) (s : regs) (i : inputs) :
  (sr_data (cycle p s i) <> sr_data s ->
   clk_cnt_done s = true /\
   (state s = HOLD \/ state s = DELAY \/
    (state s = IDLE /\ start i || init i = true))) /\
  (sclk (fsm_act s i) = true -> sdi p (cycle p s i) = sdi p s).
Proof.
  assert (K : forall st, state s = st ->
            sr_data (cycle p s i) <> sr_data s ->
            clk_cnt_done s = true /\
            (st = HOLD \/ st = DELAY \/
             (st = IDLE /\ start i || init i = true))).
  { intros st Hst Hne. unfold clk_cnt_done.
    destruct (Z.eq_dec (clk_counter s) 0) as [Hc|Hc].
    2:{ rewrite (cycle_no_tick p s i Hc) in Hne. now elim Hne. }
    rewrite Hc. split; [reflexivity|].
    destruct st; auto.
    - destruct (start i || init i) eqn:Hreq; [auto|].
      rewrite (cycle_IDLE_stay p s i Hst Hc Hreq) in Hne. now elim Hne.
    - rewrite (cycle_SETUP p s i Hst Hc) in Hne. now elim Hne.
    - rewrite (cycle_BUSY_LOW p s i Hst Hc) in Hne. now elim Hne.
    - destruct (busy i) eqn:Hb.
      + destruct (Z.eq_dec (word_counter s) 0) as [Hw|Hw].
        * rewrite (cycle_BUSY_HIGH_last p s i Hst Hc Hb Hw) in Hne.
          now elim Hne.
        * rewrite (cycle_BUSY_HIGH_next p s i Hst Hc Hb Hw) in Hne.
          now elim Hne.
      + rewrite (cycle_BUSY_HIGH_wait p s i Hst Hc Hb) in Hne. now elim Hne. }
  split; [apply K; reflexivity|].
  intros Hs. unfold sdi. f_equal.
  destruct (Z.eq_dec (sr_data (cycle p s i)) (sr_data s)) as [E|E]; [exact E|].
  exfalso. destruct (K _ eq_refl E) as (_ & H).
  change (sclk (fsm_act s i)) with (pin_sclk (outputs p s i)) in Hs.
  rewrite outputs_by_state in Hs. cbn [pin_sclk] in Hs.
  destruct H as [H|[H|[H _]]]; rewrite H in Hs; discriminate Hs.
Qed.

Lemma shift_register_write_occasions_witness :
  sr_data (cycle small_params hold_tick no_request) <> sr_data hold_tick /\
  clk_cnt_done hold_tick = true /\
  (state hold_tick = HOLD \/ state hold_tick = DELAY \/
   (state hold_tick = IDLE /\ start no_request || init no_request = true)).
Proof.
  assert (H : sr_data (cycle small_params hold_tick no_request)
              <> sr_data hold_tick) by (vm_compute; discriminate).
  split; [exact H|].
  exact (proj1 (shift_register_write_occasions small_params hold_tick
                  no_request) H).
Defined.

(** ** Chip-select between two words *)

(** In any run, the tick of DELAY is followed by at least two cycles with
    chip-select high: the first in BUSY_LOW, the second in BUSY_LOW or
    BUSY_HIGH, whatever [busy] does. *)
Theorem chip_select_high_two_cycles
  (p : SPIParams) (inp : nat -> inputs) (s0 : regs) (t : nat) :
  state (run p inp s0 t) = DELAY ->
  clk_cnt_done (run p inp s0 t) = true ->
  state (run p inp s0 (S t)) = BUSY_LOW /\
  (state (run p inp s0 (S (S t))) = BUSY_LOW \/
   state (run p inp s0 (S (S t))) = BUSY_HIGH) /\
  pin_syncr (pins_at p inp s0 (S t)) = true /\
  pin_syncr (pins_at p inp s0 (S (S t))) = true.
Proof.
  intros Hst Hc. apply Z.eqb_eq in Hc.
  assert (E1 : run p inp s0 (S t) = _)
    by (cbn [run]; apply (cycle_DELAY p _ (inp t) Hst Hc)).
  assert (S1 : state (run p inp s0 (S t)) = BUSY_LOW)
    by (rewrite E1; reflexivity).
  assert (C1 : clk_counter (run p inp s0 (S t)) = 0)
    by (rewrite E1; reflexivity).
  assert (E2 : run p inp s0 (S (S t)) = _)
    by (cbn [run]; apply (cycle_BUSY_LOW p _ (inp (S t)) S1 C1)).
  assert (S2 : state (run p inp s0 (S (S t))) = BUSY_LOW \/
               state (run p inp s0 (S (S t))) = BUSY_HIGH).
  { rewrite E2. cbn [state]. destruct (busy _); auto. }
  rewrite !pins_at_eq, S1. cbn [pin_syncr in_frame negb].
  repeat split; try assumption.
  destruct S2 as [-> | ->]; reflexivity.
Qed.

Lemma chip_select_high_two_cycles_witness :
  state (run small_params start_once reset_regs 13) = BUSY_LOW /\
  (state (run small_params start_once reset_regs 14) = BUSY_LOW \/
   state (run small_params start_once reset_regs 14) = BUSY_HIGH) /\
  pin_syncr (pins_at small_params start_once reset_regs 13) = true /\
  pin_syncr (pins_at small_params start_once reset_regs 14) = true.
Proof.
  exact (chip_select_high_two_cycles small_params start_once reset_regs 12
           eq_refl eq_refl).
Defined.

(** ** The serial clock *)

Section Clock.

Variable p : SPIParams.
Hypothesis Hp : valid_params p.
Variable inp : nat -> inputs.
Variable s0 : regs.

Local Abbreviation St t := (run p inp s0 t).
Local Abbreviation Sn t := (snap p inp s0 t).
Local Abbreviation CW := (tick_cycles p).

Lemma tick_index_shift (u k : nat) :
  (k * CW <= u)%nat -> (u / CW = (u - k * CW) / CW + k)%nat.
Proof.
  intros H. pose proof (CW_pos p Hp).
  replace u with ((u - k * CW) + k * CW)%nat at 1 by lia.
  apply Nat.div_add. lia.
Qed.

(** Through the bits of a word the FSM alternates between SETUP and HOLD,
    [CW] cycles each, starting with SETUP. *)
Lemma clock_phase (m : Z) (ini : bool) (d : list (list bool)) (b : nat) :
  forall t x c,
  Sn t = mkSnap SETUP x (Z.of_nat b) m ini c d ->
  clk_counter (St t) = clk_width p - 1 ->
  Z.of_nat b < data_width p ->
  forall u, (u < (2 * b + 1) * CW)%nat ->
    v_state (Sn (t + u)) = if Nat.even (u / CW) then SETUP else HOLD.
Proof.
  pose proof (CW_pos p Hp) as HCW.
  induction b as [|b IH]; intros t x c Hs Hc Hb u Hu.
  - destruct (phase_SETUP p Hp inp s0 _ _ _ _ _ _ _ Hs Hc) as (_ & _ & T3).
    rewrite T3 by lia. rewrite Nat.div_small by lia. reflexivity.
  - destruct (phase_SETUP p Hp inp s0 _ _ _ _ _ _ _ Hs Hc) as (T1 & T2 & T3).
    replace (Z.of_nat (S b) =? 0) with false in T1
      by (symmetry; apply Z.eqb_neq; lia).
    destruct (phase_HOLD p Hp inp s0 _ _ _ _ _ _ _ T1 T2) as (U1 & U2 & U3).
    { destruct Hp as (H1 & H2 & H3). nia. }
    replace (Z.of_nat (S b) - 1) with (Z.of_nat b) in U1 by lia.
    destruct (Nat.lt_ge_cases u CW) as [L1|L1].
    { rewrite T3 by exact L1. rewrite Nat.div_small by lia. reflexivity. }
    destruct (Nat.lt_ge_cases u (CW + CW)) as [L2|L2].
    { replace (t + u)%nat with (t + CW + (u - CW))%nat by lia.
      rewrite U3 by lia. rewrite (tick_index_shift u 1) by lia.
      rewrite Nat.div_small by lia. reflexivity. }
    replace (t + u)%nat with (t + CW + CW + (u - (CW + CW)))%nat by lia.
    rewrite (IH _ _ _ U1 U2) by lia.
    rewrite (tick_index_shift u 2) by lia.
    replace (u - 2 * CW)%nat with (u - (CW + CW))%nat by lia.
    rewrite (Nat.add_comm _ 2). reflexivity.
Qed.

End Clock.

(** In every frame, that is from every falling edge of chip-select in a run
    from a state with registers in range, the serial clock is a square wave
    of half period [clk_width]: over the [2 * data_width - 1] tick periods
    that clock the bits it is high in the even periods and low in the odd
    ones, which makes [data_width] pulses, and it is low through DELAY and
    in the BUSY_LOW cycle that follows. *)
Theorem serial_clock_square_wave
  (p : SPIParams) (inp : nat -> inputs) (s0 : regs) (t : nat) :
  valid_params p -> wf_regs p s0 ->
  pin_syncr (pins_at p inp s0 t) = true ->
  pin_syncr (pins_at p inp s0 (S t)) = false ->
  let nd := ((2 * Z.to_nat (data_width p) - 1) * tick_cycles p)%nat in
  forall u, (u <= nd + tick_cycles p)%nat ->
    pin_sclk (pins_at p inp s0 (S t + u))
    = (u <? nd)%nat && Nat.even (u / tick_cycles p).
Proof.
  intros Hp Hwf Hhi Hlo nd u Hu.
  pose proof (wf_run p inp s0 t Hp Hwf) as Wt.
  pose proof (wf_run p inp s0 (S t) Hp Hwf) as WS.
  unfold pins_at in Hhi, Hlo. rewrite (run_S p inp s0) in Hlo.
  destruct (frame_entry p _ _ _ Hp Wt Hhi Hlo) as (_ & E1 & E2 & E3).
  rewrite <- (run_S p inp s0) in E1, E2, E3.
  destruct WS as (_ & Ws & _ & Ww & _ & Wf & _).
  rewrite E1 in Wf. specialize (Wf eq_refl).
  assert (Hs : snap p inp s0 (S t)
               = mkSnap SETUP (sr_data (run p inp s0 (S t))) (data_width p - 1)
                   (word_counter (run p inp s0 (S t)))
                   (initialized (run p inp s0 (S t)))
                   (rx_cur (received p inp s0 (S t)))
                   (rx_done (received p inp s0 (S t)))).
  { unfold snap. rewrite E1, E2. reflexivity. }
  destruct (frame_phase p Hp inp s0 _ _ _ _ _ _ Hs E3 Ws ltac:(lia))
    as (F1 & _ & _ & F4).
  fold nd in F4.
  assert (Hne : (2 * Z.to_nat (data_width p) * tick_cycles p
                 = nd + tick_cycles p)%nat).
  { unfold nd. destruct Hp as (_ & H2 & _). nia. }
  rewrite Hne in F1, F4.
  rewrite pins_at_eq. cbn [pin_sclk].
  destruct (Nat.ltb_spec u nd) as [L|L]; cbn [andb].
  - assert (Hb : data_width p - 1 = Z.of_nat (Z.to_nat (data_width p) - 1))
      by (destruct Hp as (_ & H2 & _); lia).
    rewrite Hb in Hs.
    pose proof (clock_phase p Hp inp s0 _ _ _ _ _ _ _ Hs E3
                  ltac:(destruct Hp as (_ & H2 & _); lia) u) as C.
    cbn [snap v_state] in C. rewrite C.
    + destruct (Nat.even _); reflexivity.
    + unfold nd in L. destruct Hp as (_ & H2 & _). nia.
  - destruct (Nat.eq_dec u (nd + tick_cycles p)) as [->|N].
    + assert (D : state (run p inp s0 (S t + (nd + tick_cycles p))) = BUSY_LOW)
        by (unfold snap in F1; now injection F1).
      rewrite D. reflexivity.
    + destruct (F4 u ltac:(lia)) as [D _]. cbn [snap v_state] in D.
      rewrite D. reflexivity.
Qed.

Lemma serial_clock_square_wave_witness :
  valid_params small_params /\ wf_regs small_params reset_regs /\
  forall u, (u <= 12)%nat ->
    pin_sclk (pins_at small_params start_once reset_regs (1 + u))
    = (u <? 10)%nat && Nat.even (u / 2).
Proof.
  assert (Hv : valid_params small_params) by (cbv; intuition discriminate).
  split; [exact Hv|]. split; [apply wf_reset; exact Hv|].
  apply (serial_clock_square_wave small_params start_once reset_regs 0 Hv
           (wf_reset small_params Hv)); reflexivity.
Defined.

(** ** Length of a transfer and what it leaves in the shift register *)

Section Exact.

Variable p : SPIParams.
Hypothesis Hp : valid_params p.
Variable inp : nat -> inputs.
Variable s0 : regs.

Local Abbreviation St t := (run p inp s0 t).
Local Abbreviation Rx t := (received p inp s0 t).
Local Abbreviation Sn t := (snap p inp s0 t).
Local Abbreviation CW := (tick_cycles p).
Local Abbreviation DW := (Z.to_nat (data_width p)).

(** One word, with the number of cycles it takes at least: the frame and
    one cycle in each of BUSY_LOW and BUSY_HIGH. *)
Lemma word_phase_length (t : nat) x m ini d :
  busy_responsive inp ->
  Sn t = mkSnap SETUP x (data_width p - 1) m ini [] d ->
  clk_counter (St t) = clk_width p - 1 ->
  0 <= x < 2 ^ sr_width p ->
  0 < m < channels p + 1 ->
  exists n, (2 * DW * CW + 1 <= n)%nat /\
    Sn (t + n)
    = mkSnap BUSY_HIGH ((x * 2 ^ data_width p) mod 2 ^ sr_width p) 0 (m - 1)
             ini [] (d ++ [msbs p x DW]) /\
    clk_counter (St (t + n)) = 0 /\ busy (inp (t + n)%nat) = true /\
    forall u, (u <= n)%nat -> v_state (Sn (t + u)) <> IDLE.
Proof.
  intros Hr Hs Hc Hx Hm.
  destruct (frame_phase p Hp inp s0 _ _ _ _ _ _ Hs Hc Hx Hm)
    as (F1 & F2 & F3 & F4).
  cbn [app] in F1.
  destruct (handshake p inp s0 _ _ _ _ _ _ _ Hr F1 F2)
    as (nh & H0 & H1 & H2 & H3 & H4).
  set (nd := ((2 * DW - 1) * CW)%nat) in *.
  set (ne := (2 * DW * CW)%nat) in *.
  exists (ne + nh)%nat. rewrite Nat.add_assoc.
  repeat split; try assumption; try lia.
  intros u Hu.
  destruct (Nat.lt_ge_cases u nd) as [L1|L1].
  { destruct (F3 u L1) as [[E|E] _]; rewrite E; discriminate. }
  destruct (Nat.lt_ge_cases u ne) as [L2|L2].
  { destruct (F4 u (conj L1 L2)) as [E _]; rewrite E; discriminate. }
  replace (t + u)%nat with (t + ne + (u - ne))%nat by lia.
  destruct (H4 (u - ne)%nat ltac:(lia)) as [[E|E] _]; rewrite E; discriminate.
Qed.

Lemma transfer_phase_exact (ini : bool) (m : nat) :
  forall t x d,
  busy_responsive inp ->
  Sn t = mkSnap SETUP x (data_width p - 1) (Z.of_nat (S m)) ini [] d ->
  clk_counter (St t) = clk_width p - 1 ->
  0 <= x < 2 ^ sr_width p ->
  Z.of_nat (S m) <= channels p ->
  exists n, (S m * (2 * DW * CW + 2) <= n)%nat /\
    state (St (t + n)) = IDLE /\
    sr_data (St (t + n))
    = (x * 2 ^ (data_width p * Z.of_nat (S m))) mod 2 ^ sr_width p /\
    forall u, (u < n)%nat -> state (St (t + u)) <> IDLE.
Proof.
  pose proof (sr_width_pos p Hp) as HW. pose proof Hp as (H1 & H2 & H3).
  assert (Hnz : 2 ^ sr_width p <> 0) by (apply Z.pow_nonzero; lia).
  induction m as [|m IH]; intros t x d Hr Hs Hc Hx Hm.
  - destruct (word_phase_length _ _ _ _ _ Hr Hs Hc Hx ltac:(lia))
      as (n & N0 & N1 & N2 & N3 & N4).
    cbn [Z.of_nat Pos.of_succ_nat Z.sub Z.add Z.opp Z.pos_sub] in N1.
    destruct (tick_BUSY_HIGH_last p Hp inp s0 _ _ _ _ _ _ N1 N2 N3) as [T1 _].
    exists (S n). replace (t + S n)%nat with (S (t + n)) by lia.
    pose proof (f_equal v_state T1) as E1. cbn [snap v_state] in E1.
    pose proof (f_equal v_sr T1) as E2. cbn [snap v_sr] in E2.
    repeat split; try assumption; try lia.
    + rewrite E2. replace (data_width p * Z.of_nat 1) with (data_width p) by lia.
      reflexivity.
    + intros u Hu. apply (N4 u). lia.
  - destruct (word_phase_length _ _ _ _ _ Hr Hs Hc Hx ltac:(lia))
      as (n & N0 & N1 & N2 & N3 & N4).
    replace (Z.of_nat (S (S m)) - 1) with (Z.of_nat (S m)) in N1 by lia.
    destruct (tick_BUSY_HIGH_next p Hp inp s0 _ _ _ _ _ _ _ N1 N2 N3
                ltac:(lia)) as [T1 T2].
    destruct (IH (S (t + n)) _ _ Hr T1 T2) as (n' & M0 & M1 & M2 & M3).
    { apply Z.mod_pos_bound. apply Z.pow_pos_nonneg; lia. }
    { lia. }
    exists (S n + n')%nat.
    replace (t + (S n + n'))%nat with (S (t + n) + n')%nat by lia.
    repeat split; try assumption.
    + nia.
    + rewrite M2. rewrite Z.mul_mod_idemp_l by exact Hnz.
      f_equal. rewrite <- Z.mul_assoc, <- Z.pow_add_r by nia.
      do 2 f_equal. lia.
    + intros u Hu.
      destruct (Nat.le_gt_cases u n) as [L|L]; [apply (N4 u L)|].
      replace (t + u)%nat with (S (t + n) + (u - S n))%nat by lia.
      apply M3. lia.
Qed.

(** From the accepting tick: the number of words is read off the guards of
    the word counter. *)
Lemma transfer_exact_from_idle (m : nat) :
  busy_responsive inp ->
  state s0 = IDLE -> clk_counter s0 = 0 ->
  start (inp 0%nat) || init (inp 0%nat) = true ->
  (if init_latch s0 (inp 0%nat) && negb (initialized s0)
   then 1 else channels p) = Z.of_nat (S m) ->
  exists n, (1 + S m * (2 * DW * CW + 2) <= n)%nat /\
    state (St n) = IDLE /\
    sr_data (St n)
    = (Migen.trunc (sr_width p)
         (if init_latch s0 (inp 0%nat)
          then init_load p (dataSPI (inp 0%nat)) else dataSPI (inp 0%nat))
       * 2 ^ (data_width p * Z.of_nat (S m))) mod 2 ^ sr_width p /\
    forall u, (0 < u < n)%nat -> state (St u) <> IDLE.
Proof.
  intros Hr Hst Hc Hreq Hm. pose proof (sr_width_pos p Hp) as HW.
  assert (Hle : Z.of_nat (S m) <= channels p).
  { destruct Hp as (H1 & _). rewrite <- Hm.
    destruct (init_latch s0 (inp 0%nat) && negb (initialized s0)); lia. }
  destruct (accept_tick p Hp inp s0 0 Hst Hc Hreq) as [A1 A2].
  change (run p inp s0 0) with s0 in A1.
  change (rx_cur (received p inp s0 0)) with (@nil bool) in A1.
  rewrite Hm in A1.
  destruct (transfer_phase_exact _ m 1 _ _ Hr A1 A2)
    as (n & N0 & N1 & N2 & N3).
  { apply trunc_range. lia. }
  { exact Hle. }
  exists (1 + n)%nat. repeat split; try assumption; try lia.
  intros u [Hu0 Hu]. replace u with (1 + (u - 1))%nat by lia.
  apply N3. lia.
Qed.

End Exact.

Lemma words_of_transfer_nat (p : SPIParams) (s : regs) (i : inputs) :
  valid_params p ->
  words_of_transfer p s i
  = Z.of_nat (S (Z.to_nat (words_of_transfer p s i) - 1)).
Proof.
  intros (H1 & _). unfold words_of_transfer. destruct (_ && _); lia.
Qed.

Lemma drained_all (p : SPIParams) (s : regs) (i : inputs) :
  valid_params p ->
  (Migen.trunc (sr_width p)
     (if init_latch s i then init_load p (dataSPI i) else dataSPI i)
   * 2 ^ (data_width p * words_of_transfer p s i)) mod 2 ^ sr_width p = 0.
Proof.
  intros Hp. pose proof Hp as (H1 & H2 & H3).
  pose proof (sr_width_pos p Hp) as HW.
  assert (Hnz : 2 ^ sr_width p <> 0) by (apply Z.pow_nonzero; lia).
  unfold words_of_transfer.
  destruct (init_latch s i) eqn:Hil; cbn [andb].
  - destruct (init_load_range p (dataSPI i) Hp) as [R1 R2].
    rewrite trunc_small by exact R2.
    destruct (negb (initialized s)).
    + rewrite R1, <- Z.mul_assoc, <- Z.pow_add_r by nia.
      replace (data_width p * (channels p - 1) + data_width p * 1)
        with (sr_width p) by (unfold sr_width; lia).
      apply Z.mod_mul. exact Hnz.
    + fold (sr_width p). apply Z.mod_mul. exact Hnz.
  - fold (sr_width p). apply Z.mod_mul. exact Hnz.
Qed.

(** Every transfer, normal or init, leaves the shift register empty: when
    the FSM is back in IDLE (the device answering the handshake) [sr_data]
    is 0 and the data line is low. *)
Theorem transfer_leaves_shift_register_empty
  (p : SPIParams) (inp : nat -> inputs) (s0 : regs) :
  valid_params p ->
  state s0 = IDLE -> clk_cnt_done s0 = true ->
  start (inp 0%nat) || init (inp 0%nat) = true ->
  busy_responsive inp ->
  exists n, (0 < n)%nat /\
    state (run p inp s0 n) = IDLE /\
    (forall k, (0 < k < n)%nat -> state (run p inp s0 k) <> IDLE) /\
    sr_data (run p inp s0 n) = 0 /\
    pin_sdi (pins_at p inp s0 n) = false.
Proof.
  intros Hp Hst Hc Hreq Hr. apply Z.eqb_eq in Hc.
  destruct (transfer_exact_from_idle p Hp inp s0
              (Z.to_nat (words_of_transfer p s0 (inp 0%nat)) - 1) Hr Hst Hc Hreq)
    as (n & N0 & N1 & N2 & N3).
  { apply (words_of_transfer_nat p s0 (inp 0%nat) Hp). }
  rewrite <- words_of_transfer_nat, drained_all in N2 by exact Hp.
  exists n. repeat split; try assumption; try lia.
  rewrite pins_at_eq. cbn [pin_sdi]. unfold sdi, Migen.msb.
  rewrite N2. apply Z.testbit_0_l.
Qed.

Lemma transfer_leaves_shift_register_empty_witness :
  valid_params small_params /\ busy_responsive init_once /\
  exists n, (0 < n)%nat /\
    state (run small_params init_once reset_regs n) = IDLE /\
    (forall k, (0 < k < n)%nat ->
       state (run small_params init_once reset_regs k) <> IDLE) /\
    sr_data (run small_params init_once reset_regs n) = 0 /\
    pin_sdi (pins_at small_params init_once reset_regs n) = false.
Proof.
  assert (Hv : valid_params small_params) by (cbv; intuition discriminate).
  assert (Hr : busy_responsive init_once)
    by (apply toggling_busy_responsive; reflexivity).
  split; [exact Hv|]. split; [exact Hr|].
  exact (transfer_leaves_shift_register_empty small_params init_once
           reset_regs Hv eq_refl eq_refl eq_refl Hr).
Defined.

(** A transfer of [m] words ([m] is 1 for a first init transfer and
    [channels] otherwise) keeps the FSM out of IDLE for at least
    [m * (2 * data_width * clk_width + 2)] cycles after the accepting one:
    per word, [2 * data_width] tick periods of [clk_width] cycles and one
    cycle in each of BUSY_LOW and BUSY_HIGH. *)
Theorem transfer_length_lower_bound
  (p : SPIParams) (inp : nat -> inputs) (s0 : regs) :
  valid_params p ->
  state s0 = IDLE -> clk_cnt_done s0 = true ->
  start (inp 0%nat) || init (inp 0%nat) = true ->
  busy_responsive inp ->
  exists n,
    state (run p inp s0 n) = IDLE /\
    (forall k, (0 < k < n)%nat -> state (run p inp s0 k) <> IDLE) /\
    (1 + Z.to_nat (words_of_transfer p s0 (inp 0%nat))
         * (2 * Z.to_nat (data_width p) * tick_cycles p + 2) <= n)%nat.
Proof.
  intros Hp Hst Hc Hreq Hr. apply Z.eqb_eq in Hc.
  destruct (transfer_exact_from_idle p Hp inp s0
              (Z.to_nat (words_of_transfer p s0 (inp 0%nat)) - 1) Hr Hst Hc Hreq)
    as (n & N0 & N1 & N2 & N3).
  { apply (words_of_transfer_nat p s0 (inp 0%nat) Hp). }
  exists n. repeat split; try assumption.
  assert (Hm : (S (Z.to_nat (words_of_transfer p s0 (inp 0%nat)) - 1)
                = Z.to_nat (words_of_transfer p s0 (inp 0%nat)))%nat).
  { pose proof (words_of_transfer_nat p s0 (inp 0%nat) Hp). lia. }
  rewrite Hm in N0. exact N0.
Qed.

Lemma transfer_length_lower_bound_witness :
  valid_params scenario_params /\ busy_responsive start_once /\
  exists n,
    state (run scenario_params start_once reset_regs n) = IDLE /\
    (forall k, (0 < k < n)%nat ->
       state (run scenario_params start_once reset_regs k) <> IDLE) /\
    (1 + 4 * (2 * 24 * 4 + 2) <= n)%nat.
Proof.
  assert (Hv : valid_params scenario_params) by (cbv; intuition discriminate).
  assert (Hr : busy_responsive start_once)
    by (apply toggling_busy_responsive; reflexivity).
  split; [exact Hv|]. split; [exact Hr|].
  exact (transfer_length_lower_bound scenario_params start_once reset_regs
           Hv eq_refl eq_refl eq_refl Hr).
Defined.

(** ** An init request while a transfer is in flight *)

Lemma sync_init_set_by_init (p : SPIParams) (inp : nat -> inputs) (s0 : regs)
  (k u : nat) :
  init (inp k) = true -> sync_init (run p inp s0 (S k + u)) = true.
Proof.
  intros H. apply sync_init_stays.
  rewrite (run_S p inp s0), sync_init_cycle. unfold latched. now rewrite H.
Qed.

Lemma sync_init_clear_without_init (p : SPIParams) (inp : nat -> inputs)
  (s0 : regs) (n : nat) :
  sync_init s0 = false -> (forall k, (k < n)%nat -> init (inp k) = false) ->
  sync_init (run p inp s0 n) = false.
Proof.
  intros H0 H. induction n as [|n IH]; [exact H0|].
  rewrite (run_S p inp s0), sync_init_cycle. unfold latched.
  rewrite (H n) by lia. apply IH. intros k Hk. apply H. lia.
Qed.

(** A normal transfer on a core not yet initialized sends the [channels]
    words of the latch whatever [init] does after the accepting cycle; but
    if [init] is asserted during any cycle of the transfer, on a tick or
    between ticks, [initialized] is set when the transfer completes, no
    init word having been sent.  If [init] is not asserted, [initialized]
    stays low. *)
Theorem init_during_normal_transfer
  (p : SPIParams) (inp : nat -> inputs) (s0 : regs) :
  valid_params p ->
  state s0 = IDLE -> clk_cnt_done s0 = true ->
  initialized s0 = false -> sync_init s0 = false ->
  start (inp 0%nat) = true -> init (inp 0%nat) = false ->
  busy_responsive inp ->
  exists n, (0 < n)%nat /\
    state (run p inp s0 n) = IDLE /\
    (forall k, (0 < k < n)%nat -> state (run p inp s0 k) <> IDLE) /\
    rx_done (received p inp s0 n)
    = latch_words p (dataSPI (inp 0%nat)) (Z.to_nat (channels p)) /\
    ((exists k, (0 < k < n)%nat /\ init (inp k) = true) ->
     initialized (run p inp s0 n) = true) /\
    ((forall k, (k < n)%nat -> init (inp k) = false) ->
     initialized (run p inp s0 n) = false).
Proof.
  intros Hp Hst Hc Hini Hsi Hstart Hinit Hr. apply Z.eqb_eq in Hc.
  assert (Hil : init_latch s0 (inp 0%nat) = false)
    by (unfold init_latch, comb_init; now rewrite Hinit, Hsi).
  destruct (transfer_from_idle p Hp inp s0 0 (Z.to_nat (channels p) - 1) Hr)
    as (n & N0 & N1 & N2 & N3 & N4 & N5 & N6);
    try assumption; try reflexivity.
  { cbn [run]. rewrite Hstart. reflexivity. }
  { cbn [run]. rewrite Hil. cbn [andb]. apply channels_as_nat, Hp. }
  change (0 + S (S n))%nat with (S (S n)) in *.
  change (0 + S n)%nat with (S n) in *.
  change (run p inp s0 0) with s0 in *.
  change (rx_done (received p inp s0 0)) with (@nil (list bool)) in N4.
  rewrite Hil, app_nil_l, drained_normal in N4 by exact Hp.
  replace (S (Z.to_nat (channels p) - 1)) with (Z.to_nat (channels p)) in N4
    by (destruct Hp as (H & _); lia).
  assert (Hlow : initialized (run p inp s0 (S n)) = false).
  { destruct (N6 (S n) ltac:(lia)) as [_ E]. cbn [Nat.add] in E.
    now rewrite E. }
  exists (S (S n)). repeat split; try assumption; try lia.
  - intros k [Hk0 Hk]. apply (N6 k); lia.
  - intros (k & [Hk0 Hk] & Hi). rewrite N5.
    unfold init_latch, comb_init. rewrite Hlow.
    destruct (Nat.eq_dec k (S n)) as [->|Hne]; [now rewrite Hi|].
    replace (S n) with (S k + (n - k))%nat by lia.
    rewrite (sync_init_set_by_init p inp s0 k (n - k) Hi).
    cbn [negb andb]. rewrite orb_true_r. reflexivity.
  - intros Hno. rewrite N5. unfold init_latch, comb_init.
    rewrite (Hno (S n)) by lia.
    rewrite (sync_init_clear_without_init p inp s0 (S n) Hsi)
      by (intros k Hk; apply Hno; lia).
    cbn. exact Hini.
Qed.

Lemma init_during_normal_transfer_witness :
  valid_params small_params /\ busy_responsive init_late /\
  exists n, (0 < n)%nat /\
    state (run small_params init_late reset_regs n) = IDLE /\
    (forall k, (0 < k < n)%nat ->
       state (run small_params init_late reset_regs k) <> IDLE) /\
    rx_done (received small_params init_late reset_regs n)
    = latch_words small_params 43 2 /\
    ((exists k, (0 < k < n)%nat /\ init (init_late k) = true) ->
     initialized (run small_params init_late reset_regs n) = true) /\
    ((forall k, (k < n)%nat -> init (init_late k) = false) ->
     initialized (run small_params init_late reset_regs n) = false).
Proof.
  assert (Hv : valid_params small_params) by (cbv; intuition discriminate).
  assert (Hr : busy_responsive init_late)
    by (apply toggling_busy_responsive; reflexivity).
  split; [exact Hv|]. split; [exact Hr|].
  exact (init_during_normal_transfer small_params init_late reset_regs Hv
           eq_refl eq_refl eq_refl eq_refl eq_refl eq_refl Hr).
Defined.

(** ** The data latch is read on the load pulse only *)

(** On a cycle that is not the tick of a load pulse, the value of the data
    latch has no effect on the next registers nor on the pins: the latch
    needs to be held during the accepting cycle only. *)
Theorem data_latch_read_on_load_only
  (p : SPIParams) (s : regs) (i : inputs) (d1 d2 : Z) :
  clk_cnt_done s && data_load (fsm_act s i) = false ->
  cycle p s (with_data d1 i) = cycle p s (with_data d2 i) /\
  outputs p s (with_data d1 i) = outputs p s (with_data d2 i).
Proof.
  intros H. split; [|reflexivity].
  destruct (Z.eq_dec (clk_counter s) 0) as [Hc|Hc].
  2:{ rewrite !cycle_no_tick by exact Hc. reflexivity. }
  unfold clk_cnt_done in H. rewrite Hc in H. cbn [Z.eqb andb] in H.
  unfold cycle, datapath.
  change (data_load (fsm_act s (with_data d1 i))) with (data_load (fsm_act s i)).
  change (data_load (fsm_act s (with_data d2 i))) with (data_load (fsm_act s i)).
  rewrite H. reflexivity.
Qed.

Lemma data_latch_read_on_load_only_witness :
  clk_cnt_done hold_tick && data_load (fsm_act hold_tick no_request) = false /\
  cycle small_params hold_tick (with_data 1 no_request)
  = cycle small_params hold_tick (with_data 2 no_request) /\
  outputs small_params hold_tick (with_data 1 no_request)
  = outputs small_params hold_tick (with_data 2 no_request).
Proof.
  split; [reflexivity|].
  exact (data_latch_read_on_load_only small_params hold_tick no_request 1 2
           eq_refl).
Defined.

(** ** Order of the channels on the wire *)

Lemma word_value_snoc (w : list bool) (b : bool) :
  word_value (w ++ [b]) = 2 * word_value w + Z.b2z b.
Proof. unfold word_value. rewrite fold_left_app. reflexivity. Qed.

(** [n] bits of [d] read downwards from bit [h]. *)
Lemma msb_first_value (d h : Z) (n : nat) :
  Z.of_nat n <= h + 1 ->
  word_value (map (fun i => Z.testbit d (h - Z.of_nat i)) (seq 0 n))
  = (d / 2 ^ (h + 1 - Z.of_nat n)) mod 2 ^ Z.of_nat n.
Proof.
  induction n as [|n IH]; intros Hn.
  - cbn. now rewrite Z.mod_1_r.
  - rewrite seq_S, map_app. cbn [map Nat.add].
    rewrite word_value_snoc, IH by lia.
    set (k := h - Z.of_nat n).
    assert (Hk : 0 <= k) by (unfold k; lia).
    rewrite Z.testbit_spec' by exact Hk.
    replace (h + 1 - Z.of_nat n) with (k + 1) by (unfold k; lia).
    replace (h + 1 - Z.of_nat (S n)) with k by (unfold k; lia).
    replace (Z.of_nat (S n)) with (Z.succ (Z.of_nat n)) by lia.
    rewrite Z.pow_succ_r by lia.
    rewrite (Z.rem_mul_r (d / 2 ^ k) 2 (2 ^ Z.of_nat n))
      by (try lia; apply Z.pow_pos_nonneg; lia).
    rewrite Z.div_div by (try lia; apply Z.pow_pos_nonneg; lia).
    rewrite Z.pow_add_r by lia. rewrite Z.pow_1_r. lia.
Qed.

Lemma latch_word_value (p : SPIParams) (d : Z) (j : nat) :
  valid_params p -> Z.of_nat j < channels p ->
  word_value (latch_word p d j) = slot p d (channels p - 1 - Z.of_nat j).
Proof.
  intros (H1 & H2 & H3) Hj. unfold latch_word, latch_bit, slot.
  rewrite (map_ext _ (fun i => Z.testbit d
             (sr_width p - 1 - Z.of_nat j * data_width p - Z.of_nat i)))
    by (intros i; f_equal; lia).
  rewrite msb_first_value by (unfold sr_width; nia).
  rewrite Z2Nat.id by lia. do 3 f_equal. unfold sr_width. lia.
Qed.

(** In a normal transfer the channel slots of the latch go out highest
    first: the [j]-th word received, read as a number with its first bit
    the most significant, is slot [channels - 1 - j] of the latch. *)
Theorem channels_sent_highest_slot_first
  (p : SPIParams) (inp : nat -> inputs) (s0 : regs) :
  valid_params p ->
  state s0 = IDLE -> clk_cnt_done s0 = true ->
  start (inp 0%nat) = true -> init_latch s0 (inp 0%nat) = false ->
  busy_responsive inp ->
  exists n, (0 < n)%nat /\
    state (run p inp s0 n) = IDLE /\
    (forall k, (0 < k < n)%nat -> state (run p inp s0 k) <> IDLE) /\
    map word_value (rx_done (received p inp s0 n))
    = map (fun j => slot p (dataSPI (inp 0%nat)) (channels p - 1 - Z.of_nat j))
          (seq 0 (Z.to_nat (channels p))).
Proof.
  intros Hp Hst Hc Hstart Hil Hr. apply Z.eqb_eq in Hc.
  destruct (transfer_from_idle p Hp inp s0 0 (Z.to_nat (channels p) - 1) Hr)
    as (n & N0 & N1 & N2 & N3 & N4 & N5 & N6);
    try assumption; try reflexivity.
  { cbn [run]. rewrite Hstart. reflexivity. }
  { cbn [run]. rewrite Hil. cbn [andb]. apply channels_as_nat, Hp. }
  change (0 + S (S n))%nat with (S (S n)) in *.
  change (run p inp s0 0) with s0 in *.
  change (rx_done (received p inp s0 0)) with (@nil (list bool)) in N4.
  rewrite Hil, app_nil_l, drained_normal in N4 by exact Hp.
  replace (S (Z.to_nat (channels p) - 1)) with (Z.to_nat (channels p)) in N4
    by (destruct Hp as (H & _); lia).
  exists (S (S n)). repeat split; try assumption; try lia.
  - intros k [Hk0 Hk]. apply (N6 k); lia.
  - rewrite N4. unfold latch_words. rewrite map_map.
    apply map_ext_in. intros j Hj. apply in_seq in Hj.
    apply latch_word_value; [exact Hp|]. destruct Hp as (H & _). lia.
Qed.

Lemma channels_sent_highest_slot_first_witness :
  valid_params small_params /\ busy_responsive start_once /\
  exists n, (0 < n)%nat /\
    state (run small_params start_once reset_regs n) = IDLE /\
    (forall k, (0 < k < n)%nat ->
       state (run small_params start_once reset_regs k) <> IDLE) /\
    map word_value (rx_done (received small_params start_once reset_regs n))
    = map (fun j => slot small_params 43 (2 - 1 - Z.of_nat j)) (seq 0 2).
Proof.
  assert (Hv : valid_params small_params) by (cbv; intuition discriminate).
  assert (Hr : busy_responsive start_once)
    by (apply toggling_busy_responsive; reflexivity).
  split; [exact Hv|]. split; [exact Hr|].
  exact (channels_sent_highest_slot_first small_params start_once reset_regs
           Hv eq_refl eq_refl eq_refl eq_refl Hr).
Defined.

(** ** [initialized] without any init request *)

(** A core run from reset to which [init] is never asserted never reports
    [initialized], however many transfers it completes, and its init latch
    stays clear. *)
Theorem never_initialized_without_init
  (p : SPIParams) (inp : nat -> inputs) (n : nat) :
  (forall k, (k < n)%nat -> init (inp k) = false) ->
  initialized (run p inp reset_regs n) = false /\
  sync_init (run p inp reset_regs n) = false /\
  (init (inp n) = false -> init_latch (run p inp reset_regs n) (inp n) = false).
Proof.
  intros H.
  assert (Hs : forall m, (m <= n)%nat -> sync_init (run p inp reset_regs m) = false).
  { intros m Hm. apply sync_init_clear_without_init; [reflexivity|].
    intros k Hk. apply H. lia. }
  assert (Hi : forall m, (m <= n)%nat -> initialized (run p inp reset_regs m) = false).
  { induction m as [|m IH]; intros Hm; [reflexivity|].
    rewrite (run_S p inp reset_regs), initialized_cycle, IH by lia.
    unfold init_done_tick, init_latch, comb_init.
    rewrite (H m), (Hs m) by lia. cbn [orb andb].
    rewrite !andb_false_r. reflexivity. }
  repeat split; [apply Hi; lia | apply Hs; lia |].
  intros Hn. unfold init_latch, comb_init. rewrite Hn, (Hs n) by lia.
  reflexivity.
Qed.

Lemma never_initialized_without_init_witness :
  (forall k, (k < 60)%nat -> init (start_once k) = false) /\
  initialized (run small_params start_once reset_regs 60) = false /\
  sync_init (run small_params start_once reset_regs 60) = false /\
  (init (start_once 60) = false ->
   init_latch (run small_params start_once reset_regs 60) (start_once 60)
   = false).
Proof.
  assert (H : forall k, (k < 60)%nat -> init (start_once k) = false)
    by (intros k _; reflexivity).
  split; [exact H|].
  exact (never_initialized_without_init small_params start_once 60 H).
Defined.
